(** * train.py: the placeholder training entry point

    A shallow embedding of [train.py] and of the part of the Python
    runtime it calls ([os.listdir], [os.makedirs], [os.path.dirname],
    [open], [print], [time.sleep], [os.environ], [argparse]), followed
    by the properties of the training job.

    The program is effectful: it reads the process environment and the
    command line, reads and writes the file system, prints and sleeps,
    and every failure is an uncaught exception.  It is modelled in a
    monad that threads the process state, may raise, and collects the
    observable events of the run. *)

From Stdlib Require Import ZArith Lia Ascii DecimalString.
From stdpp Require Import base option list strings gmap.

#[local] Arguments String.append !_ _ : simpl nomatch.

(** ** Strings and POSIX path names ([posixpath]) *)

Module posixpath.

Definition sep : ascii := "/"%char.
Definition is_sep (c : ascii) : bool := Ascii.eqb c sep.

Definition nonempty (s : string) : bool :=
  match s with EmptyString => false | String _ _ => true end.

(** [rpartition p] is [(p[:i], p[i:])] for [i = p.rfind('/') + 1]:
    the head runs up to and including the last separator. *)
Fixpoint rpartition (p : string) : string * string :=
  match p with
  | EmptyString => (EmptyString, EmptyString)
  | String c r =>
      match rpartition r with
      | (EmptyString, t) =>
          if is_sep c then (String c EmptyString, t)
          else (EmptyString, String c t)
      | (h, t) => (String c h, t)
      end
  end.

(** [head == sep * len(head)] *)
Fixpoint all_sep (s : string) : bool :=
  match s with
  | EmptyString => true
  | String c r => is_sep c && all_sep r
  end.

(** [head.rstrip(sep)] *)
Fixpoint rstrip (s : string) : string :=
  match s with
  | EmptyString => EmptyString
  | String c r =>
      match rstrip r with
      | EmptyString => if is_sep c then EmptyString else String c EmptyString
      | r' => String c r'
      end
  end.

(** [posixpath.split]:
    [i = p.rfind(sep) + 1; head, tail = p[:i], p[i:];
     if head and head != sep*len(head): head = head.rstrip(sep)]. *)
Definition split (p : string) : string * string :=
  let '(head, tail) := rpartition p in
  if nonempty head && negb (all_sep head)
  then (rstrip head, tail)
  else (head, tail).

(** [posixpath.dirname] has the body of [split] and returns [head]. *)
Definition dirname (p : string) : string := fst (split p).

(** The components of a path name, cut at every separator
    (what [p.split('/')] returns). *)
Fixpoint components (p : string) : list string :=
  match p with
  | EmptyString => [EmptyString]
  | String c r =>
      if is_sep c then EmptyString :: components r
      else match components r with
           | x :: xs => String c x :: xs
           | [] => [String c EmptyString]
           end
  end.

Fixpoint has_sep (s : string) : bool :=
  match s with
  | EmptyString => false
  | String c r => is_sep c || has_sep r
  end.

(** [posixpath.basename]: [p[i:]] for the same [i]. *)
Definition basename (p : string) : string := snd (rpartition p).

Definition isabs (p : string) : bool :=
  match p with String c _ => is_sep c | EmptyString => false end.

Fixpoint has_nul (p : string) : bool :=
  match p with
  | EmptyString => false
  | String c r => Ascii.eqb c Ascii.zero || has_nul r
  end.

End posixpath.

(** ** The file system

    A flat table from absolute, normalised paths (lists of components,
    the root being [[]]) to nodes.  The table is a list: its order is
    the order in which the operating system enumerates entries, which
    [os.listdir] exposes.  The root directory always exists.  Symbolic
    links, permissions and I/O faults are outside the model. *)

Inductive node : Type :=
| NFile (content : string)
| NDir.

Abbreviation path := (list string).
Abbreviation fstree := (list (list string * node)).

Fixpoint fs_get (t : fstree) (q : path) : option node :=
  match t with
  | [] => None
  | (k, n) :: t' => if decide (k = q) then Some n else fs_get t' q
  end.

(** Replace the node of an existing entry in place, or append a new
    entry at the end of the table. *)
Fixpoint fs_set (t : fstree) (q : path) (n : node) : fstree :=
  match t with
  | [] => [(q, n)]
  | (k, m) :: t' =>
      if decide (k = q) then (k, n) :: t' else (k, m) :: fs_set t' q n
  end.

Definition node_at (t : fstree) (q : path) : option node :=
  match q with
  | [] => Some NDir
  | _ => fs_get t q
  end.

Definition isdir_at (t : fstree) (q : path) : bool :=
  match node_at t q with Some NDir => true | _ => false end.

Definition parent (q : path) : path := removelast q.

Definition child_name (d : path) (k : path) : option string :=
  match last k with
  | Some c => if decide (parent k = d) then Some c else None
  | None => None
  end.

(** The names of the entries of directory [d], in table order. *)
Definition children (t : fstree) (d : path) : list string :=
  omap (fun e => child_name d (fst e)) t.

Inductive errno : Type := ENOENT | ENOTDIR | EEXIST | EISDIR | EBADF.

(** Path resolution: every component is looked up in the directory
    reached so far, which must exist and be a directory.  The last
    component itself need not exist. *)
Fixpoint walk (t : fstree) (cur : path) (cs : list string) : errno + path :=
  match cs with
  | [] => inr cur
  | c :: rest =>
      match node_at t cur with
      | None => inl ENOENT
      | Some (NFile _) => inl ENOTDIR
      | Some NDir =>
          if decide (c = "" ∨ c = ".") then walk t cur rest
          else if decide (c = "..") then walk t (parent cur) rest
          else walk t (cur ++ [c]) rest
      end
  end.

(** ** Process state, exceptions and events *)

Record Namespace : Type := mkNamespace {
  model_dir : string;
  checkpoint_dir : string;
  training_dir : string
}.

Record state : Type := mkState {
  fs : fstree;
  cwd : path;
  environ : gmap string string;
  argv : list string
}.

Definition with_fs (s : state) (t : fstree) : state :=
  {| fs := t; cwd := cwd s; environ := environ s; argv := argv s |}.

(** [OSError e p] stands for the subclass Python raises for [e]:
    [FileNotFoundError] (ENOENT), [NotADirectoryError] (ENOTDIR),
    [FileExistsError] (EEXIST), [IsADirectoryError] (EISDIR). *)
Inductive exn : Type :=
| OSError (e : errno) (filename : string)
| ValueError (msg : string)
| KeyError (key : string)
| SystemExit (code : Z)
| RecursionError.

(** What [print] is given. *)
Inductive pyobj : Type :=
| PStr (s : string)
| PList (l : list string)
| PNamespace (a : Namespace).

Inductive event : Type :=
| EPrint (objs : list pyobj)
| EListdir (p : string)
| ESleep (secs : Z)
| EMkdir (p : string)
| EOpenW (p : string)
| EWrite (f : path) (data : string)
| EHelp
| EUsage.

Inductive outcome (A : Type) : Type :=
| Ok (a : A)
| Raise (e : exn).
Arguments Ok {A} a.
Arguments Raise {A} e.

(** A computation runs from a state to an outcome, the state it leaves
    (also when it raises) and the events it produced. *)
Definition M (A : Type) : Type := state -> outcome A * state * list event.

Definition ret {A} (a : A) : M A := fun s => (Ok a, s, []).

Definition bind {A B} (m : M A) (k : A -> M B) : M B :=
  fun s =>
    match m s with
    | (Ok a, s1, t1) =>
        match k a s1 with
        | (r, s2, t2) => (r, s2, t1 ++ t2)
        end
    | (Raise e, s1, t1) => (Raise e, s1, t1)
    end.

Declare Scope py_scope.
Delimit Scope py_scope with py.
Notation "'do' x <- m ; k" := (bind m (fun x => k))
  (at level 10, x name, m at level 100, k at level 200) : py_scope.
Notation "'run' m ; k" := (bind m (fun _ => k))
  (at level 10, m at level 100, k at level 200) : py_scope.
Local Open Scope py_scope.

Definition raise {A} (e : exn) : M A := fun s => (Raise e, s, []).
Definition gets {A} (f : state -> A) : M A := fun s => (Ok (f s), s, []).
Definition emit (e : event) : M unit := fun s => (Ok tt, s, [e]).
Definition put_fs (t : fstree) : M unit := fun s => (Ok tt, with_fs s t, []).

(** [try: m  except <h e = Some _>: ...]; an exception the handler does
    not take propagates. *)
Definition try_except {A} (m : M A) (h : exn -> option (M A)) : M A :=
  fun s =>
    match m s with
    | (Ok a, s1, t1) => (Ok a, s1, t1)
    | (Raise e, s1, t1) =>
        match h e with
        | Some k => match k s1 with (r, s2, t2) => (r, s2, t1 ++ t2) end
        | None => (Raise e, s1, t1)
        end
    end.

(** [try: m  finally: c] *)
Definition finally {A} (m : M A) (c : M unit) : M A :=
  fun s =>
    match m s with
    | (r, s1, t1) =>
        match c s1 with
        | (Ok _, s2, t2) => (r, s2, t1 ++ t2)
        | (Raise e, s2, t2) => (Raise e, s2, t1 ++ t2)
        end
    end.

(** [for x in range(n): body x] *)
Fixpoint for_each {A} (l : list A) (body : A -> M unit) : M unit :=
  match l with
  | [] => ret tt
  | x :: l' => run body x; for_each l' body
  end.

Definition for_range (n : nat) (body : nat -> M unit) : M unit :=
  for_each (seq 0 n) body.

(** ** Built-ins: [print], [str.format] of an integer, [time.sleep] *)

Definition print (objs : list pyobj) : M unit := emit (EPrint objs).

Definition str_of_nat (n : nat) : string :=
  NilEmpty.string_of_uint (Nat.to_uint n).

Definition nl : string := String (ascii_of_nat 10) EmptyString.

Module time.
Definition sleep (secs : Z) : M unit := emit (ESleep secs).
End time.

(** ** The [os] module *)

Module os.

(** [os.environ[key]] *)
Definition environ_getitem (key : string) : M string :=
  do env <- gets environ;
  match env !! key with
  | Some v => ret v
  | None => raise (KeyError key)
  end.

(** Where a path name leads in a state.  The empty name leads nowhere;
    an absolute name starts at the root, any other at the working
    directory. *)
Definition resolve (s : state) (p : string) : errno + path :=
  if posixpath.nonempty p
  then walk (fs s) (if posixpath.isabs p then [] else cwd s)
            (posixpath.components p)
  else inl ENOENT.

Definition lookup_path (s : state) (p : string) : option node :=
  if posixpath.has_nul p then None
  else match resolve s p with
       | inr q => node_at (fs s) q
       | inl _ => None
       end.

(** [os.path.exists] and [os.path.isdir]: false on every failure. *)
Definition path_exists (s : state) (p : string) : bool :=
  match lookup_path s p with Some _ => true | None => false end.

Definition path_isdir (s : state) (p : string) : bool :=
  match lookup_path s p with Some NDir => true | _ => false end.

Definition embedded_null : exn := ValueError "embedded null byte".

(** [os.listdir(p)] *)
Definition listdir (p : string) : M (list string) :=
  run emit (EListdir p);
  if posixpath.has_nul p then raise embedded_null
  else
    do s <- gets id;
    match resolve s p with
    | inl e => raise (OSError e p)
    | inr q =>
        match node_at (fs s) q with
        | Some NDir => ret (children (fs s) q)
        | Some (NFile _) => raise (OSError ENOTDIR p)
        | None => raise (OSError ENOENT p)
        end
    end.

(** The name [mkdir] looks up: trailing separators after the name of
    the directory to create are ignored. *)
Definition creation_name (p : string) : string :=
  if posixpath.all_sep p then p else posixpath.rstrip p.

(** [os.mkdir(p)] *)
Definition mkdir (p : string) : M unit :=
  run emit (EMkdir p);
  if posixpath.has_nul p then raise embedded_null
  else
    do s <- gets id;
    match resolve s (creation_name p) with
    | inl e => raise (OSError e p)
    | inr q =>
        match node_at (fs s) q with
        | Some _ => raise (OSError EEXIST p)
        | None => put_fs (fs_set (fs s) q NDir)
        end
    end.

Definition is_OSError (e : exn) : bool :=
  match e with OSError _ _ => true | _ => false end.

Definition is_FileExistsError (e : exn) : bool :=
  match e with OSError EEXIST _ => true | _ => false end.

(** [os.makedirs(name, exist_ok=exist_ok)]:
<<
    head, tail = path.split(name)
    if not tail:
        head, tail = path.split(head)
    if head and tail and not path.exists(head):
        try:
            makedirs(head, exist_ok=exist_ok)
        except FileExistsError:
            pass
        if tail == curdir:
            return
    try:
        mkdir(name, mode)
    except OSError:
        if not exist_ok or not path.isdir(name):
            raise
>>
    [mkdir_exist_ok] is the final [try] statement.  The recursion is on
    a strictly shorter name; [fuel] bounds its depth and [makedirs]
    supplies more than the name can use. *)
Definition mkdir_exist_ok (name : string) (exist_ok : bool) : M unit :=
  try_except (mkdir name)
    (fun e =>
       if is_OSError e then
         Some (do s <- gets id;
               if negb exist_ok || negb (path_isdir s name)
               then raise e else ret tt)
       else None).

(** [head, tail = path.split(name)] and, [if not tail], once more on
    [head]. *)
Definition split_twice (name : string) : string * string :=
  let '(head, tail) := posixpath.split name in
  if posixpath.nonempty tail then (head, tail) else posixpath.split head.

Fixpoint makedirs_aux (fuel : nat) (name : string) (exist_ok : bool) : M unit :=
  match fuel with
  | O => raise RecursionError
  | S fuel' =>
      let '(head, tail) := split_twice name in
      do s <- gets id;
      if posixpath.nonempty head && posixpath.nonempty tail
         && negb (path_exists s head)
      then
        run try_except (makedirs_aux fuel' head exist_ok)
              (fun e => if is_FileExistsError e then Some (ret tt) else None);
        if decide (tail = ".") then ret tt
        else mkdir_exist_ok name exist_ok
      else mkdir_exist_ok name exist_ok
  end.

Definition makedirs (name : string) (exist_ok : bool) : M unit :=
  makedirs_aux (S (String.length name)) name exist_ok.

End os.

(** ** Files: [open(p, "w")], [f.write], and the [with] statement *)

(** [open(p, "w")]: create the file or truncate it.  The handle is the
    node the name resolved to. *)
Definition open_w (p : string) : M path :=
  run emit (EOpenW p);
  if posixpath.has_nul p then raise os.embedded_null
  else
    do s <- gets id;
    match os.resolve s p with
    | inl e => raise (OSError e p)
    | inr q =>
        match node_at (fs s) q with
        | Some NDir => raise (OSError EISDIR p)
        | _ => run put_fs (fs_set (fs s) q (NFile "")); ret q
        end
    end.

(** [f.write(data)]: append at the file position. *)
Definition file_write (f : path) (data : string) : M unit :=
  run emit (EWrite f data);
  do s <- gets id;
  match fs_get (fs s) f with
  | Some (NFile c) => put_fs (fs_set (fs s) f (NFile (c +:+ data)))
  | _ => raise (OSError EBADF "")
  end.

Definition file_close (f : path) : M unit := ret tt.

(** [with open(p, "w") as f: body f] *)
Definition with_open_w {A} (p : string) (body : path -> M A) : M A :=
  do f <- open_w p;
  finally (body f) (file_close f).

(** [open(p).read()], to observe a file. *)
Definition read_text (s : state) (p : string) : option string :=
  match os.lookup_path s p with
  | Some (NFile c) => Some c
  | _ => None
  end.

(** ** [argparse], for the parser [train.py] builds

    The parser has the automatic [-h]/[--help] and three options that
    store one string each.  Modelled after CPython's [argparse]:
    exact option strings, [--opt=value], unique prefixes of long
    options, values that must not look like options, [--] ending the
    options, help exiting with status 0 and every usage error with
    status 2. *)

Module argparse.

Inductive dest : Type := Help | ModelDir | CheckpointDir | TrainingDir.

(** [parser._option_string_actions] *)
Definition option_string_actions : list (string * dest) :=
  [("-h", Help); ("--help", Help); ("--model-dir", ModelDir);
   ("--checkpoint-dir", CheckpointDir); ("--training-dir", TrainingDir)].

Fixpoint assoc (l : list (string * dest)) (s : string) : option dest :=
  match l with
  | [] => None
  | (k, d) :: l' => if String.eqb k s then Some d else assoc l' s
  end.

(** [s.split('=', 1)] when ['=' in s] *)
Fixpoint partition_eq (s : string) : option (string * string) :=
  match s with
  | EmptyString => None
  | String c r =>
      if Ascii.eqb c "="%char then Some (EmptyString, r)
      else match partition_eq r with
           | Some (a, b) => Some (String c a, b)
           | None => None
           end
  end.

Fixpoint contains (c : ascii) (s : string) : bool :=
  match s with
  | EmptyString => false
  | String c' r => Ascii.eqb c' c || contains c r
  end.

Fixpoint all_chars (f : ascii -> bool) (s : string) : bool :=
  match s with
  | EmptyString => true
  | String c r => f c && all_chars f r
  end.

Definition is_digit (c : ascii) : bool :=
  (48 <=? nat_of_ascii c)%nat && (nat_of_ascii c <=? 57)%nat.

Definition digits1 (s : string) : bool :=
  posixpath.nonempty s && all_chars is_digit s.

(** The regular expression [^-\d+$|^-\d*\.\d+$]. *)
Definition negative_number (s : string) : bool :=
  match s with
  | String "-" r =>
      digits1 r ||
      match String.index 0 "." r with
      | Some i =>
          all_chars is_digit (String.substring 0 i r)
          && digits1 (String.substring (S i) (String.length r - S i) r)
      | None => false
      end
  | _ => false
  end.

Inductive token : Type :=
| TArg (s : string)
| TOpt (d : dest) (option_string : string) (explicit_arg : option string)
| TUnknown (s : string).

Definition get_option_tuples (s : string) : list token :=
  match s with
  | String _ (String "-" _) =>
      let '(option_prefix, explicit_arg) :=
        match partition_eq s with
        | Some (a, b) => (a, Some b)
        | None => (s, None)
        end in
      omap (fun e : string * dest =>
              if String.prefix option_prefix (fst e)
              then Some (TOpt (snd e) (fst e) explicit_arg) else None)
           option_string_actions
  | String c0 (String c1 rest) =>
      let short_option_prefix := String c0 (String c1 EmptyString) in
      omap (fun e : string * dest =>
              if String.eqb (fst e) short_option_prefix
              then Some (TOpt (snd e) (fst e) (Some rest))
              else if String.prefix s (fst e)
              then Some (TOpt (snd e) (fst e) None) else None)
           option_string_actions
  | _ => []
  end.

(** [_parse_optional]; [None] is the ambiguous-option error. *)
Definition parse_optional (s : string) : option token :=
  match s with
  | EmptyString => Some (TArg s)
  | String c r =>
      if negb (Ascii.eqb c "-"%char) then Some (TArg s)
      else
        match assoc option_string_actions s with
        | Some d => Some (TOpt d s None)
        | None =>
            if negb (posixpath.nonempty r) then Some (TArg s)
            else
              let by_eq :=
                match partition_eq s with
                | Some (a, b) =>
                    match assoc option_string_actions a with
                    | Some d => Some (TOpt d a (Some b))
                    | None => None
                    end
                | None => None
                end in
              match by_eq with
              | Some t => Some t
              | None =>
                  match get_option_tuples s with
                  | _ :: _ :: _ => None
                  | [t] => Some t
                  | [] =>
                      if negative_number s then Some (TArg s)
                      else if contains " "%char s then Some (TArg s)
                      else Some (TUnknown s)
                  end
              end
        end
  end.

(** The first pass over the command line: classify every string up to
    a ["--"].  The result is [None] on an ambiguous option, else the
    tokens and whether a ["--"] was met. *)
Fixpoint tokenize (l : list string) : option (list token * bool) :=
  match l with
  | [] => Some ([], false)
  | s :: l' =>
      if String.eqb s "--" then Some ([], true)
      else match parse_optional s with
           | None => None
           | Some t =>
               match tokenize l' with
               | Some (ts, dd) => Some (t :: ts, dd)
               | None => None
               end
           end
  end.

(** [parser.error]: usage on stderr, exit status 2. *)
Definition error {A} : M A := run emit EUsage; raise (SystemExit 2).

(** The help action: help on stdout, exit status 0. *)
Definition print_help_exit {A} : M A := run emit EHelp; raise (SystemExit 0).

Definition store (d : dest) (v : string) (ns : Namespace) : Namespace :=
  match d with
  | ModelDir =>
      {| model_dir := v; checkpoint_dir := checkpoint_dir ns;
         training_dir := training_dir ns |}
  | CheckpointDir =>
      {| model_dir := model_dir ns; checkpoint_dir := v;
         training_dir := training_dir ns |}
  | TrainingDir =>
      {| model_dir := model_dir ns; checkpoint_dir := checkpoint_dir ns;
         training_dir := v |}
  | Help => ns
  end.

(** The second pass: options take effect from left to right; strings
    that belong to no option are collected ([extras]) and reported at
    the end. *)
Fixpoint consume (ts : list token) (ns : Namespace) (extras : bool)
  : M Namespace :=
  match ts with
  | [] => if extras then error else ret ns
  | TArg _ :: rest => consume rest ns true
  | TUnknown _ :: rest => consume rest ns true
  | TOpt Help _ None :: _ => print_help_exit
  | TOpt Help o (Some e) :: _ =>
      if String.eqb o "-h" && posixpath.nonempty e
         && all_chars (Ascii.eqb "h"%char) e
      then print_help_exit else error
  | TOpt d _ (Some v) :: rest => consume rest (store d v ns) extras
  | TOpt d _ None :: TArg v :: rest => consume rest (store d v ns) extras
  | TOpt _ _ None :: _ => error
  end.

(** [parser.parse_args()] on [sys.argv[1:]], from the defaults given
    to [add_argument]. *)
Definition parse_args (defaults : Namespace) : M Namespace :=
  do args <- gets argv;
  match tokenize args with
  | None => error
  | Some (ts, dashdash) => consume ts defaults dashdash
  end.

End argparse.

(** ** [train.py] *)

(** [epochs = 5] *)
Definition epochs : nat := 5.

(** The body of [for x in range(epochs)]:
<<
    print("\nRunning epoch {0}...".format(x))
    time.sleep(2)
    print("Completed epoch {0}.".format(x))
>> *)
Definition epoch_body (x : nat) : M unit :=
  run print [PStr (nl +:+ "Running epoch " +:+ str_of_nat x +:+ "...")];
  run time.sleep 2;
  print [PStr ("Completed epoch " +:+ str_of_nat x +:+ ".")].

(** [model_filename = args.model_dir + "/model.dummy"] *)
Definition model_filename (args : Namespace) : string :=
  model_dir args +:+ "/model.dummy".

(** [train(args)]:
<<
    print('args', args)
    tmp = os.listdir(args.training_dir)
    print ('listing training files', tmp)
    epochs = 5
    for x in range(epochs): ...
    model_filename = args.model_dir + "/model.dummy"
    os.makedirs(os.path.dirname(model_filename), exist_ok=True)
    with open(model_filename, "w") as f:
        f.write("Dummy model.")
>> *)
Definition train (args : Namespace) : M unit :=
  run print [PStr "args"; PNamespace args];
  do tmp <- os.listdir (training_dir args);
  run print [PStr "listing training files"; PList tmp];
  run for_range epochs epoch_body;
  run os.makedirs (posixpath.dirname (model_filename args)) true;
  with_open_w (model_filename args) (fun f => file_write f "Dummy model.").

(** The [__main__] block.  The defaults are arguments of
    [add_argument], so both [os.environ] lookups are evaluated while the
    parser is built, before [parse_args] looks at the command line. *)
Definition main : M unit :=
  do default_model_dir <- os.environ_getitem "SM_MODEL_DIR";
  do default_training_dir <- os.environ_getitem "SM_CHANNEL_TRAIN";
  do args <- argparse.parse_args
               {| model_dir := default_model_dir;
                  checkpoint_dir := "/opt/ml/checkpoints";
                  training_dir := default_training_dir |};
  train args.

(** ** Vocabulary of the specification *)

(** The last two statements of [train]: create the directory of the
    artifact and write the artifact. *)
Definition persist (args : Namespace) : M unit :=
  run os.makedirs (posixpath.dirname (model_filename args)) true;
  with_open_w (model_filename args) (fun f => file_write f "Dummy model.").

(** The events of the five simulated epochs. *)
Definition epoch_events (x : nat) : list event :=
  [EPrint [PStr (nl +:+ "Running epoch " +:+ str_of_nat x +:+ "...")];
   ESleep 2;
   EPrint [PStr ("Completed epoch " +:+ str_of_nat x +:+ ".")]].

Definition epochs_trace : list event :=
  epoch_events 0 ++ epoch_events 1 ++ epoch_events 2
  ++ epoch_events 3 ++ epoch_events 4.

Definition is_sleep (e : event) : bool :=
  match e with ESleep _ => true | _ => false end.
Definition is_mkdir (e : event) : bool :=
  match e with EMkdir _ => true | _ => false end.

(** The failure conditions of the specification, as classes of Python
    exceptions.  DirectoryNotFound covers a missing directory
    ([FileNotFoundError]), a name that is not a directory
    ([NotADirectoryError]) and a name no directory can have
    ([ValueError], embedded null byte). *)
Definition DirectoryNotFound (e : exn) : bool :=
  match e with
  | OSError ENOENT _ | OSError ENOTDIR _ => true
  | ValueError _ => true
  | _ => false
  end.

Definition ConfigurationMissing (e : exn) : bool :=
  match e with KeyError _ => true | _ => false end.

(** A file system grows: directories are added at paths that were
    free, and nothing else changes. *)
Inductive grows : fstree -> fstree -> Prop :=
| grows_refl t : grows t t
| grows_step t t' q :
    grows t t' -> node_at t' q = None -> grows t (fs_set t' q NDir).

(** No path has two entries. *)
Definition wf_fs (t : fstree) : Prop := NoDup (t.*1).

(** A run leaves everything but the file system alone, and the file
    system only grows. *)
Definition state_grows (s s' : state) : Prop :=
  grows (fs s) (fs s') /\ cwd s' = cwd s /\ environ s' = environ s
  /\ argv s' = argv s.

(** Two configurations that differ at most in [checkpoint_dir]. *)
Definition same_but_checkpoint (a1 a2 : Namespace) : Prop :=
  model_dir a1 = model_dir a2 /\ training_dir a1 = training_dir a2.

(** [p.endswith('/')] *)
Fixpoint ends_with_sep (p : string) : bool :=
  match p with
  | EmptyString => false
  | String c EmptyString => posixpath.is_sep c
  | String _ r => ends_with_sep r
  end.

(** The entries of directory [d] are exactly the names in [names]. *)
Definition entries_are (t : fstree) (d : path) (names : list string) : Prop :=
  forall c, is_Some (fs_get t (d ++ [c])) <-> c ∈ names.



(** ** Sample runs

    A training channel [/data] with two files, in two enumeration
    orders, and the configurations used to exercise the theorems. *)

Definition sample_environ : gmap string string :=
  {[ "SM_MODEL_DIR" := "/opt/ml/model"; "SM_CHANNEL_TRAIN" := "/data" ]}.

Definition sample_state : state :=
  {| fs := [(["data"], NDir);
            (["data"; "a.csv"], NFile "1,2");
            (["data"; "b.csv"], NFile "3,4")];
     cwd := [];
     environ := sample_environ;
     argv := [] |}.

Definition sample_args : Namespace :=
  {| model_dir := "/tmp/out";
     checkpoint_dir := "/opt/ml/checkpoints";
     training_dir := "/data" |}.

(** The same channel, enumerated by the file system in the other
    order. *)
Definition reversed_state : state :=
  {| fs := [(["data"], NDir);
            (["data"; "b.csv"], NFile "3,4");
            (["data"; "a.csv"], NFile "1,2")];
     cwd := [];
     environ := sample_environ;
     argv := [] |}.

(** [/tmp/out] is a regular file. *)
Definition blocked_state : state :=
  {| fs := [(["data"], NDir); (["tmp"], NDir); (["tmp"; "out"], NFile "")];
     cwd := [];
     environ := sample_environ;
     argv := [] |}.



Definition other_checkpoint_args : Namespace :=
  {| model_dir := "/tmp/out";
     checkpoint_dir := "/mnt/checkpoints";
     training_dir := "/data" |}.

(** A working directory that holds a regular file [f]. *)
Definition dotted_state : state :=
  {| fs := [(["f"], NFile "")];
     cwd := [];
     environ := sample_environ;
     argv := [] |}.

Definition dotted_model_dir : string := "new/../f/.".

(** [/tmp/out] exists and holds a directory named [model.dummy]. *)
Definition occupied_state : state :=
  {| fs := [(["data"], NDir); (["tmp"], NDir); (["tmp"; "out"], NDir);
            (["tmp"; "out"; "model.dummy"], NDir)];
     cwd := [];
     environ := sample_environ;
     argv := [] |}.

(** [/tmp/out] exists and is empty. *)
Definition prepared_state : state :=
  {| fs := [(["data"], NDir); (["tmp"], NDir); (["tmp"; "out"], NDir)];
     cwd := [];
     environ := sample_environ;
     argv := [] |}.

Definition empty_model_dir_args : Namespace :=
  {| model_dir := "";
     checkpoint_dir := "/opt/ml/checkpoints";
     training_dir := "/data" |}.

(** ** The runtime model at work

    Values CPython returns for the same calls. *)

Example split_abs : posixpath.split "/a/b" = ("/a", "b").
Proof. reflexivity. Qed.

Example split_trailing : posixpath.split "a//b/" = ("a//b", "").
Proof. reflexivity. Qed.

Example split_root : posixpath.split "///" = ("///", "").
Proof. reflexivity. Qed.

Example split_plain : posixpath.split "abc" = ("", "abc").
Proof. reflexivity. Qed.

Example dirname_artifact : posixpath.dirname "/tmp/out/model.dummy" = "/tmp/out".
Proof. reflexivity. Qed.

Example dirname_empty_model_dir : posixpath.dirname ("" +:+ "/model.dummy") = "/".
Proof. reflexivity. Qed.

(** [makedirs] creates the missing ancestors, in order. *)
Example makedirs_chain :
  (fs (os.makedirs "/tmp/out" true sample_state).1.2).*1
  = [["data"]; ["data"; "a.csv"]; ["data"; "b.csv"]; ["tmp"]; ["tmp"; "out"]].
Proof. by vm_compute. Qed.

Example makedirs_over_file :
  (os.makedirs "/tmp/out" true blocked_state).1.1
  = Raise (OSError EEXIST "/tmp/out").
Proof. by vm_compute. Qed.

Example makedirs_dotdot :
  (fs (os.makedirs "a/../b" true sample_state).1.2).*1
  = [["data"]; ["data"; "a.csv"]; ["data"; "b.csv"]; ["a"]; ["b"]].
Proof. by vm_compute. Qed.

Example listdir_missing :
  (os.listdir "/nowhere" sample_state).1.1
  = Raise (OSError ENOENT "/nowhere").
Proof. by vm_compute. Qed.

Example listdir_file :
  (os.listdir "/data/a.csv" sample_state).1.1
  = Raise (OSError ENOTDIR "/data/a.csv").
Proof. by vm_compute. Qed.

Example parse_abbreviation :
  (argparse.parse_args sample_args
     (mkState [] [] ∅ ["--model"; "x"; "--c=y"])).1.1
  = Ok {| model_dir := "x"; checkpoint_dir := "y"; training_dir := "/data" |}.
Proof. by vm_compute. Qed.

Example parse_negative_number :
  (argparse.parse_args sample_args (mkState [] [] ∅ ["--model-dir"; "-5"])).1.1
  = Ok {| model_dir := "-5"; checkpoint_dir := "/opt/ml/checkpoints";
          training_dir := "/data" |}.
Proof. by vm_compute. Qed.

Example parse_dashdash :
  (argparse.parse_args sample_args (mkState [] [] ∅ ["--"])).1.1
  = Raise (SystemExit 2).
Proof. by vm_compute. Qed.

Example parse_missing_value :
  (argparse.parse_args sample_args
     (mkState [] [] ∅ ["--model-dir"; "--"; "x"])).1.1
  = Raise (SystemExit 2).
Proof. by vm_compute. Qed.

Example parse_ambiguous :
  (argparse.parse_args sample_args (mkState [] [] ∅ ["--=x"])).1.1
  = Raise (SystemExit 2).
Proof. by vm_compute. Qed.

Example parse_help :
  (argparse.parse_args sample_args (mkState [] [] ∅ ["-hh"])).1.1
  = Raise (SystemExit 0).
Proof. by vm_compute. Qed.

(** The scenario of the specification: [/data] with [a.csv] and
    [b.csv], enumerated in that order, and [model_dir = /tmp/out]. *)
Example scenario_listing :
  os.listdir "/data" sample_state
  = (Ok ["a.csv"; "b.csv"], sample_state, [EListdir "/data"]).
Proof. by vm_compute. Qed.

Example scenario_artifact :
  read_text (train sample_args sample_state).1.2 "/tmp/out/model.dummy"
  = Some "Dummy model.".
Proof. by vm_compute. Qed.

(** Unfold the plumbing of the monad. *)
Ltac munfold :=
  unfold bind, ret, raise, gets, emit, put_fs, try_except, finally, id in *.

(** ** Path names *)

Section path_names.

Import posixpath.



Lemma nonempty_app_sep (x t : string) : nonempty (x +:+ String sep t) = true.
Proof. by destruct x. Qed.

Lemma rpartition_nosep (t : string) :
  has_sep t = false -> rpartition t = (EmptyString, t).
Proof.
  induction t as [|c t IH]; simpl; [done |].
  intros [Hc Ht]%orb_false_iff. by rewrite (IH Ht), Hc.
Qed.

Lemma rpartition_app (x t : string) :
  has_sep t = false ->
  rpartition (x +:+ String sep t) = (x +:+ String sep EmptyString, t).
Proof.
  intros Ht. induction x as [|c x IH]; simpl.
  - by rewrite (rpartition_nosep t Ht).
  - rewrite IH. by destruct x.
Qed.

Lemma sep_cases (p : string) :
  has_sep p = false \/
  exists x t, p = x +:+ String sep t /\ has_sep t = false.
Proof.
  induction p as [|c p IH]; simpl; [by left |].
  destruct IH as [Hp | (x & t & -> & Ht)].
  - destruct (is_sep c) eqn:Hc; [| by left].
    right. exists EmptyString, p. split; [| done].
    apply Ascii.eqb_eq in Hc. by subst c.
  - right. by exists (String c x), t.
Qed.

Lemma components_nonempty (p : string) : components p <> [].
Proof.
  induction p as [|c p IH]; simpl; [done |].
  destruct (is_sep c); [done |]. by destruct (components p).
Qed.

Lemma components_app_sep (a b : string) :
  components (a +:+ String sep b) = components a ++ components b.
Proof.
  induction a as [|c a IH]; simpl; [done |].
  rewrite IH. destruct (is_sep c); [done |].
  pose proof (components_nonempty a). by destruct (components a).
Qed.

Lemma components_nosep (t : string) :
  has_sep t = false -> components t = [t].
Proof.
  induction t as [|c t IH]; simpl; [done |].
  intros [Hc Ht]%orb_false_iff. by rewrite Hc, (IH Ht).
Qed.

Lemma rstrip_app_sep (x : string) : rstrip (x +:+ String sep EmptyString) = rstrip x.
Proof. induction x as [|c x IH]; simpl; [done | by rewrite IH]. Qed.

Lemma components_rstrip (x : string) :
  exists k, components x = components (rstrip x) ++ replicate k EmptyString.
Proof.
  induction x as [|c x [k IH]].
  { by exists 0. }
  simpl. rewrite IH. destruct (rstrip x) as [|c' r'] eqn:Hr.
  - destruct (is_sep c) eqn:Hc; simpl; rewrite ?Hc.
    + by exists (S k).
    + by exists k.
  - exists k. remember (String c' r') as r.
    simpl. destruct (is_sep c); [done |].
    pose proof (components_nonempty r). by destruct (components r).
Qed.

Lemma isabs_rstrip (x : string) :
  nonempty (rstrip x) = true -> isabs (rstrip x) = isabs x.
Proof.
  destruct x as [|c x]; simpl; [done |].
  destruct (rstrip x); [| done].
  destruct (is_sep c) eqn:Hc; simpl; [done | by rewrite Hc].
Qed.

Lemma isabs_app (a b : string) :
  nonempty a = true -> isabs (a +:+ b) = isabs a.
Proof. by destruct a. Qed.

Lemma has_nul_app (a b : string) :
  has_nul (a +:+ b) = has_nul a || has_nul b.
Proof.
  induction a as [|c a IH]; simpl; [done |]. by rewrite IH, orb_assoc.
Qed.

Lemma has_nul_rstrip (x : string) :
  has_nul x = false -> has_nul (rstrip x) = false.
Proof.
  induction x as [|c x IH]; simpl; [done |].
  intros [Hc Hx]%orb_false_iff. specialize (IH Hx).
  destruct (rstrip x).
  - destruct (is_sep c); simpl; [done | by rewrite Hc].
  - simpl in *. by rewrite Hc, IH.
Qed.

Lemma all_sep_has_nul (x : string) : all_sep x = true -> has_nul x = false.
Proof.
  induction x as [|c x IH]; simpl; [done |].
  intros [Hc Hx]%andb_true_iff. rewrite (IH Hx).
  apply Ascii.eqb_eq in Hc. by subst c.
Qed.

End path_names.

(** ** The file-system table *)

Section table.

Implicit Types (t : fstree) (q : path) (n : node).

Lemma fs_get_set_eq t q n : fs_get (fs_set t q n) q = Some n.
Proof.
  induction t as [|[k m] t IH]; simpl.
  - by rewrite decide_True.
  - destruct (decide (k = q)); simpl.
    + by rewrite decide_True.
    + by rewrite decide_False.
Qed.

Lemma fs_get_set_ne t q q' n :
  q <> q' -> fs_get (fs_set t q n) q' = fs_get t q'.
Proof.
  intros Hne. induction t as [|[k m] t IH]; simpl.
  - by rewrite decide_False.
  - destruct (decide (k = q)) as [->|]; simpl.
    + by rewrite !decide_False.
    + by rewrite IH.
Qed.

Lemma fs_set_id t q n : fs_get t q = Some n -> fs_set t q n = t.
Proof.
  induction t as [|[k m] t IH]; simpl; [done |].
  destruct (decide (k = q)); [congruence |].
  intros H. by rewrite IH.
Qed.

Lemma fs_set_set t q a b : fs_set (fs_set t q a) q b = fs_set t q b.
Proof.
  induction t as [|[k m] t IH]; simpl.
  - by rewrite decide_True.
  - destruct (decide (k = q)); simpl.
    + by rewrite decide_True.
    + by rewrite decide_False, IH.
Qed.

Lemma fs_get_None t q : fs_get t q = None <-> q ∉ t.*1.
Proof.
  induction t as [|[k m] t IH]; simpl.
  - split; [intros _; apply not_elem_of_nil | done].
  - rewrite not_elem_of_cons. destruct (decide (k = q)) as [->|Hne].
    + split; [done | by intros []].
    + rewrite IH. split; [by intros | by intros []].
Qed.

Lemma fs_set_keys_present t q n :
  is_Some (fs_get t q) -> (fs_set t q n).*1 = t.*1.
Proof.
  induction t as [|[k m] t IH]; simpl; [by intros [] |].
  destruct (decide (k = q)); simpl; [done |].
  intros H. f_equal. by apply IH.
Qed.

Lemma fs_set_keys_absent t q n :
  fs_get t q = None -> (fs_set t q n).*1 = t.*1 ++ [q].
Proof.
  induction t as [|[k m] t IH]; simpl; [done |].
  destruct (decide (k = q)); simpl; [done |].
  intros H. f_equal. by apply IH.
Qed.

Lemma wf_fs_set t q n : wf_fs t -> wf_fs (fs_set t q n).
Proof.
  unfold wf_fs. intros Hwf. destruct (fs_get t q) eqn:Hq.
  - by rewrite fs_set_keys_present.
  - rewrite fs_set_keys_absent by done.
    apply NoDup_app. split_and!; [done | | apply NoDup_singleton].
    intros x Hx ->%list_elem_of_singleton. by apply fs_get_None in Hq.
Qed.

Lemma node_at_set_ne t q q' n :
  q <> q' -> node_at (fs_set t q n) q' = node_at t q'.
Proof. intros. destruct q'; simpl; [done |]. by apply fs_get_set_ne. Qed.

Lemma node_at_set_eq t q n :
  q <> [] -> node_at (fs_set t q n) q = Some n.
Proof. intros. destruct q; simpl; [done |]. apply fs_get_set_eq. Qed.

Lemma node_at_None_nonroot t q : node_at t q = None -> q <> [].
Proof. by destruct q. Qed.

Lemma node_at_None_get t q : node_at t q = None -> fs_get t q = None.
Proof. by destruct q. Qed.

(** Growth. *)

Lemma grows_trans t1 t2 t3 : grows t1 t2 -> grows t2 t3 -> grows t1 t3.
Proof. intros H12 H23. induction H23; [done |]. apply grows_step; auto. Qed.

Lemma grows_node t t' q :
  grows t t' ->
  node_at t' q = node_at t q \/
  (node_at t q = None /\ node_at t' q = Some NDir).
Proof.
  induction 1 as [|t t' q0 _ IH Hfree]; [by left |].
  destruct (decide (q0 = q)) as [->|Hne].
  - right. rewrite node_at_set_eq by by eapply node_at_None_nonroot.
    destruct IH as [IH | [IH _]]; by rewrite <-?IH.
  - by rewrite node_at_set_ne.
Qed.

Lemma grows_isdir t t' q :
  grows t t' -> isdir_at t q = true -> isdir_at t' q = true.
Proof.
  intros Hg. unfold isdir_at.
  destruct (grows_node t t' q Hg) as [-> | [-> ->]]; done.
Qed.

Lemma grows_wf t t' : grows t t' -> wf_fs t -> wf_fs t'.
Proof. induction 1; [done |]. intros. by apply wf_fs_set; auto. Qed.

(** Writing a file over a file, or at a free path, leaves the
    directories as they are. *)
Lemma isdir_set_file t q c q' :
  isdir_at t q = false ->
  isdir_at (fs_set t q (NFile c)) q' = isdir_at t q'.
Proof.
  intros Hq. unfold isdir_at. destruct (decide (q = q')) as [<-|Hne].
  - assert (q <> []) by (by intros ->).
    rewrite node_at_set_eq by done. unfold isdir_at in Hq.
    by destruct (node_at t q) as [[]|].
  - by rewrite node_at_set_ne.
Qed.

(** Walking. *)

Lemma walk_app t cur l1 l2 :
  walk t cur (l1 ++ l2) =
  match walk t cur l1 with
  | inr q => walk t q l2
  | inl e => inl e
  end.
Proof.
  revert cur. induction l1 as [|c l1 IH]; intros cur; simpl; [done |].
  destruct (node_at t cur) as [[]|]; [done | | done].
  repeat case_decide; apply IH.
Qed.

Lemma walk_cons_isdir t cur c l q :
  walk t cur (c :: l) = inr q -> isdir_at t cur = true.
Proof.
  simpl. unfold isdir_at. by destruct (node_at t cur) as [[]|].
Qed.

Lemma walk_empties t cur k l q :
  walk t cur (replicate k EmptyString ++ l) = inr q -> walk t cur l = inr q.
Proof.
  induction k as [|k IH]; simpl; [done |].
  destruct (node_at t cur) as [[]|]; [done | | done].
  first [done | by rewrite decide_True by (by left)].
Qed.

Lemma walk_empties_dir t cur k :
  isdir_at t cur = true -> walk t cur (replicate k EmptyString) = inr cur.
Proof.
  intros Hd. induction k as [|k IH]; simpl; [done |].
  unfold isdir_at in Hd. destruct (node_at t cur) as [[]|]; [done | | done].
  first [done | by rewrite decide_True by (by left)].
Qed.

Lemma walk_mono t t' cur cs q :
  (forall q', isdir_at t q' = true -> isdir_at t' q' = true) ->
  walk t cur cs = inr q -> walk t' cur cs = inr q.
Proof.
  intros Hle. revert cur. induction cs as [|c cs IH]; intros cur; simpl; [done |].
  intros Hw. pose proof (walk_cons_isdir t cur c cs q Hw) as Hd.
  apply Hle in Hd. unfold isdir_at in Hd. simpl in Hw.
  destruct (node_at t' cur) as [[]|]; [done | | done].
  destruct (node_at t cur) as [[]|]; [done | | done].
  repeat case_decide; by apply IH.
Qed.

End table.

(** ** [posixpath.split] and path resolution *)

Section split_resolve.

Import posixpath.

Lemma all_sep_app_sep (x : string) :
  all_sep (x +:+ String sep EmptyString) = all_sep x.
Proof.
  induction x as [|c x IH]; simpl; [done |]. by rewrite IH.
Qed.

Lemma rstrip_nonempty (x : string) :
  all_sep x = false -> nonempty (rstrip x) = true.
Proof.
  induction x as [|c x IH]; simpl; [done |].
  destruct (is_sep c) eqn:Hc; simpl.
  - intros Hx. specialize (IH Hx). by destruct (rstrip x).
  - intros _. by destruct (rstrip x).
Qed.

Lemma length_app (a b : string) :
  String.length (a +:+ b) = String.length a + String.length b.
Proof. induction a as [|c a IH]; simpl; [done | by rewrite IH]. Qed.

Lemma length_rstrip (x : string) :
  String.length (rstrip x) <= String.length x.
Proof.
  induction x as [|c x IH]; simpl; [done |].
  destruct (rstrip x); [destruct (is_sep c) |]; simpl in *; lia.
Qed.

(** The three shapes of a split. *)
Lemma split_cases (p head tail : string) :
  split p = (head, tail) ->
  (head = EmptyString /\ tail = p /\ has_sep p = false) \/
  (exists x, p = x +:+ String sep tail /\ has_sep tail = false /\
     ((all_sep x = true /\ head = x +:+ String sep EmptyString) \/
      (all_sep x = false /\ head = rstrip x))).
Proof.
  unfold split. destruct (sep_cases p) as [Hp | (x & t & -> & Ht)].
  - rewrite (rpartition_nosep p Hp). simpl. intros [= <- <-]. by left.
  - rewrite (rpartition_app x t Ht), nonempty_app_sep, all_sep_app_sep.
    simpl. right. exists x. destruct (all_sep x) eqn:Hx; simpl in *.
    + injection H as <- <-. eauto.
    + injection H as <- <-. rewrite rstrip_app_sep. eauto.
Qed.

Lemma split_length (p head tail : string) :
  split p = (head, tail) ->
  String.length head + String.length tail <= String.length p.
Proof.
  intros [(-> & -> & _) | (x & -> & _ & [[_ ->] | [_ ->]])]%split_cases;
    rewrite ?length_app; simpl; [lia | lia |].
  pose proof (length_rstrip x). lia.
Qed.

Lemma split_head_abs (p head tail : string) :
  split p = (head, tail) -> nonempty head = true -> isabs head = isabs p.
Proof.
  intros [(-> & _) | (x & -> & _ & [[Hx ->] | [Hx ->]])]%split_cases Hne;
    [done | |].
  - by destruct x.
  - rewrite isabs_rstrip by done. destruct x; [done |]. done.
Qed.

Lemma split_head_nul (p head tail : string) :
  split p = (head, tail) -> has_nul p = false -> has_nul head = false.
Proof.
  intros [(-> & _) | (x & -> & _ & [[Hx ->] | [Hx ->]])]%split_cases;
    [done | |]; rewrite has_nul_app; intros [Hn _]%orb_false_iff.
  - by rewrite has_nul_app, Hn.
  - by apply has_nul_rstrip.
Qed.

Lemma split_components (p head tail : string) :
  split p = (head, tail) -> nonempty head = true ->
  exists pre k,
    components p = pre ++ replicate k EmptyString ++ [tail] /\
    components head = pre ++ replicate (1 - k) EmptyString /\ k <= 1 \/
    components p = components head ++ replicate k EmptyString ++ [tail].
Proof.
  intros [(-> & _) | (x & -> & Ht & [[Hx ->] | [Hx ->]])]%split_cases Hne;
    [done | |]; rewrite !components_app_sep, (components_nosep tail Ht).
  - exists (components x), 0. left. split_and!; [reflexivity | reflexivity | lia].
  - destruct (components_rstrip x) as [k Hk].
    exists [], k. right. by rewrite Hk, <-app_assoc.
Qed.

(** Resolving a name resolves its head on the way, to a directory. *)
Lemma walk_split t start (p head tail : string) q :
  split p = (head, tail) -> nonempty head = true ->
  walk t start (components p) = inr q ->
  exists q0, walk t start (components head) = inr q0 /\
             isdir_at t q0 = true /\ walk t q0 [tail] = inr q.
Proof.
  intros Hs Hne Hw.
  destruct (split_components p head tail Hs Hne)
    as (pre & k & [(Hp & Hh & Hk) | Hp]); rewrite Hp in Hw.
  - rewrite walk_app in Hw.
    destruct (walk t start pre) as [e|q1] eqn:Hpre; [done |].
    apply walk_empties in Hw.
    pose proof (walk_cons_isdir _ _ _ _ _ Hw) as Hd.
    exists q1. split_and!; [| done | done].
    rewrite Hh, walk_app, Hpre. by apply walk_empties_dir.
  - rewrite walk_app in Hw.
    destruct (walk t start (components head)) as [e|q1] eqn:Hpre; [done |].
    apply walk_empties in Hw.
    pose proof (walk_cons_isdir _ _ _ _ _ Hw) as Hd. eauto.
Qed.

Lemma resolve_head s (p head tail : string) q :
  split p = (head, tail) -> nonempty head = true ->
  os.resolve s p = inr q ->
  exists q0, os.resolve s head = inr q0 /\ isdir_at (fs s) q0 = true /\
             walk (fs s) q0 [tail] = inr q.
Proof.
  unfold os.resolve. intros Hs Hne. rewrite Hne.
  destruct (nonempty p); [| done].
  rewrite (split_head_abs p head tail Hs Hne). by apply walk_split.
Qed.

Lemma path_isdir_resolve s (p : string) :
  os.path_isdir s p = true <->
  has_nul p = false /\
  exists q, os.resolve s p = inr q /\ isdir_at (fs s) q = true.
Proof.
  unfold os.path_isdir, os.lookup_path, isdir_at.
  destruct (has_nul p); [split; [done | by intros [? _]] |].
  destruct (os.resolve s p) as [e|q];
    [split; [done | by intros (_ & ? & ? & _)] |].
  split.
  - intros H. split; [done |]. exists q. by destruct (node_at (fs s) q) as [[]|].
  - intros (_ & q' & [= <-] & H). by destruct (node_at (fs s) q) as [[]|].
Qed.

Lemma path_isdir_exists s (p : string) :
  os.path_isdir s p = true -> os.path_exists s p = true.
Proof.
  unfold os.path_isdir, os.path_exists. by destruct (os.lookup_path s p).
Qed.

(** The head of a name that resolves is an existing directory. *)
Lemma path_isdir_head s (p head tail : string) q :
  split p = (head, tail) -> nonempty head = true ->
  has_nul p = false -> os.resolve s p = inr q ->
  os.path_isdir s head = true.
Proof.
  intros Hs Hne Hn Hr. apply path_isdir_resolve.
  split; [by eapply split_head_nul |].
  destruct (resolve_head s p head tail q Hs Hne Hr) as (q0 & ? & ? & _).
  eauto.
Qed.

Lemma walk_empties_eq t cur k q :
  walk t cur (replicate k EmptyString) = inr q -> q = cur.
Proof.
  intros H. rewrite <-(app_nil_r (replicate _ _)) in H.
  apply walk_empties in H. simpl in H. congruence.
Qed.

Lemma resolve_creation_name s (p : string) q :
  os.resolve s p = inr q -> os.resolve s (os.creation_name p) = inr q.
Proof.
  unfold os.creation_name. destruct (all_sep p) eqn:Hp; [done |].
  unfold os.resolve. rewrite (rstrip_nonempty p Hp).
  destruct (nonempty p); [| done].
  rewrite isabs_rstrip by by apply rstrip_nonempty.
  destruct (components_rstrip p) as [k ->]. rewrite walk_app.
  destruct (walk _ _ (components (rstrip p))) as [e|q1]; [done |].
  by intros ->%walk_empties_eq.
Qed.

Lemma resolve_of_creation_name s (p : string) q :
  os.resolve s (os.creation_name p) = inr q ->
  isdir_at (fs s) q = true -> os.resolve s p = inr q.
Proof.
  unfold os.creation_name. destruct (all_sep p) eqn:Hp; [done |].
  unfold os.resolve. rewrite (rstrip_nonempty p Hp).
  assert (nonempty p = true) as -> by by destruct p.
  rewrite isabs_rstrip by by apply rstrip_nonempty.
  destruct (components_rstrip p) as [k ->]. rewrite walk_app.
  intros -> Hd. by apply walk_empties_dir.
Qed.

End split_resolve.

(** ** The operations of [os] *)

Section operations.

Implicit Types (s : state) (p name : string) (q : path).

Lemma bind_inv {A B} (m : M A) (k : A -> M B) s r s' tr :
  bind m k s = (r, s', tr) ->
  (exists a s1 t1 t2,
     m s = (Ok a, s1, t1) /\ k a s1 = (r, s', t2) /\ tr = t1 ++ t2) \/
  (exists e, m s = (Raise e, s', tr) /\ r = Raise e).
Proof.
  unfold bind. destruct (m s) as [[[a|e] s1] t1].
  - destruct (k a s1) as [[r2 s2] t2] eqn:Hk. intros [= <- <- <-].
    left. by exists a, s1, t1, t2.
  - intros [= <- <- <-]. right. by exists e.
Qed.

Lemma try_except_inv {A} (m : M A) (h : exn -> option (M A)) s r s' tr :
  try_except m h s = (r, s', tr) ->
  (exists a, m s = (Ok a, s', tr) /\ r = Ok a) \/
  (exists e s1 t1, m s = (Raise e, s1, t1) /\
     ((h e = None /\ r = Raise e /\ s' = s1 /\ tr = t1) \/
      (exists k t2, h e = Some k /\ k s1 = (r, s', t2) /\ tr = t1 ++ t2))).
Proof.
  unfold try_except. destruct (m s) as [[[a|e] s1] t1].
  - intros [= <- <- <-]. left. by exists a.
  - intros H. right. exists e, s1, t1. split; [done |].
    destruct (h e) as [k|].
    + destruct (k s1) as [[r2 s2] t2] eqn:Hk. injection H as <- <- <-.
      right. by exists k, t2.
    + injection H as <- <- <-. by left.
Qed.

Lemma with_fs_id s : with_fs s (fs s) = s.
Proof. by destruct s. Qed.

Lemma with_fs_twice s t t' : with_fs (with_fs s t) t' = with_fs s t'.
Proof. done. Qed.

Lemma state_grows_refl s : state_grows s s.
Proof. split; [constructor | done]. Qed.

Lemma state_grows_trans s1 s2 s3 :
  state_grows s1 s2 -> state_grows s2 s3 -> state_grows s1 s3.
Proof.
  intros (? & ? & ? & ?) (? & ? & ? & ?).
  split; [by eapply grows_trans | split_and!; congruence].
Qed.

Lemma state_grows_mkdir s q :
  node_at (fs s) q = None ->
  state_grows s (with_fs s (fs_set (fs s) q NDir)).
Proof. intros. split; [| done]. simpl. by repeat constructor. Qed.

Lemma state_grows_eq s s' :
  state_grows s s' -> s' = with_fs s (fs s').
Proof.
  destruct s, s'. intros (_ & ? & ? & ?). simpl in *. by subst.
Qed.

Lemma state_grows_resolve s s' p q :
  state_grows s s' -> os.resolve s p = inr q -> os.resolve s' p = inr q.
Proof.
  intros (Hg & Hc & _). unfold os.resolve. rewrite Hc.
  destruct (posixpath.nonempty p); [| done].
  apply walk_mono. intros q'. by apply grows_isdir.
Qed.

Lemma state_grows_isdir s s' p :
  state_grows s s' -> os.path_isdir s p = true -> os.path_isdir s' p = true.
Proof.
  intros Hg (Hn & q & Hr & Hd)%path_isdir_resolve. apply path_isdir_resolve.
  split; [done |]. exists q. split; [by eapply state_grows_resolve |].
  destruct Hg as [Hg _]. by eapply grows_isdir.
Qed.

(** [os.listdir] *)

Lemma listdir_ok s p :
  os.path_isdir s p = true ->
  exists q, os.resolve s p = inr q /\
            os.listdir p s = (Ok (children (fs s) q), s, [EListdir p]).
Proof.
  intros (Hn & q & Hr & Hd)%path_isdir_resolve. exists q. split; [done |].
  unfold os.listdir. munfold. simpl. rewrite Hn. simpl. rewrite Hr.
  unfold isdir_at in Hd. by destruct (node_at (fs s) q) as [[]|].
Qed.

Lemma listdir_err s p :
  os.path_isdir s p = false ->
  exists e, os.listdir p s = (Raise e, s, [EListdir p]) /\
            DirectoryNotFound e = true.
Proof.
  unfold os.path_isdir, os.lookup_path, os.listdir. munfold. simpl.
  destruct (posixpath.has_nul p); simpl; [by eauto |].
  destruct (os.resolve s p) as [e|q] eqn:Hr.
  - intros _. exists (OSError e p). split; [done |].
    unfold os.resolve in Hr. destruct (posixpath.nonempty p); [| by inversion Hr].
    clear -Hr. revert Hr. generalize (if posixpath.isabs p then [] else cwd s).
    induction (posixpath.components p) as [|c cs IH]; intros cur; simpl; [done |].
    destruct (node_at (fs s) cur) as [[]|]; [by intros [= <-] | | by intros [= <-]].
    repeat case_decide; apply IH.
  - destruct (node_at (fs s) q) as [[]|]; [by eauto | done | by eauto].
Qed.

(** [os.mkdir] *)

Lemma mkdir_inv s p r s' tr :
  os.mkdir p s = (r, s', tr) ->
  tr = [EMkdir p] /\
  ((exists q, r = Ok tt /\ posixpath.has_nul p = false /\
              os.resolve s (os.creation_name p) = inr q /\
              node_at (fs s) q = None /\
              s' = with_fs s (fs_set (fs s) q NDir)) \/
   (exists e, r = Raise e /\ s' = s /\
              (os.is_OSError e = true \/ e = os.embedded_null))).
Proof.
  unfold os.mkdir. munfold. simpl.
  destruct (posixpath.has_nul p); simpl.
  { intros [= <- <- <-]. split; [done |]. right. eauto. }
  destruct (os.resolve s (os.creation_name p)) as [e|q] eqn:Hr.
  { intros [= <- <- <-]. split; [done |]. right. eauto 6. }
  destruct (node_at (fs s) q) eqn:Hq.
  - intros [= <- <- <-]. split; [done |]. right. eauto 6.
  - intros [= <- <- <-]. split; [done |]. left. eauto 8.
Qed.

Lemma mkdir_isdir s p :
  os.path_isdir s p = true ->
  os.mkdir p s = (Raise (OSError EEXIST p), s, [EMkdir p]).
Proof.
  intros (Hn & q & Hr & Hd)%path_isdir_resolve.
  unfold os.mkdir. munfold. simpl. rewrite Hn. simpl.
  rewrite (resolve_creation_name s p q Hr).
  unfold isdir_at in Hd. by destruct (node_at (fs s) q) as [[]|].
Qed.

Lemma mkdir_exist_ok_inv s p ok r s' tr :
  os.mkdir_exist_ok p ok s = (r, s', tr) ->
  tr = [EMkdir p] /\ state_grows s s' /\
  (r = Ok tt -> os.path_isdir s' p = true) /\
  (forall e, r = Raise e ->
             s' = s /\ (os.is_OSError e = true \/ e = os.embedded_null)).
Proof.
  unfold os.mkdir_exist_ok, try_except.
  destruct (os.mkdir p s) as [[r0 s0] tr0] eqn:Hm.
  apply mkdir_inv in Hm as [-> [(q & -> & Hn & Hr & Hq & ->) | (e & -> & -> & He)]].
  - intros [= <- <- <-]. split_and!; [done | by apply state_grows_mkdir | | done].
    intros _. apply path_isdir_resolve. split; [done |]. exists q.
    assert (isdir_at (fs (with_fs s (fs_set (fs s) q NDir))) q = true) as Hd.
    { unfold isdir_at. simpl.
      by rewrite node_at_set_eq by by eapply node_at_None_nonroot. }
    split; [| done]. apply resolve_of_creation_name; [| done].
    eapply state_grows_resolve; [by apply state_grows_mkdir | done].
  - destruct He as [He | ->].
    + rewrite He. munfold. simpl.
      destruct (negb ok || negb (os.path_isdir s p)) eqn:Hc;
        intros [= <- <- <-];
        (split_and!; [done | apply state_grows_refl | |]).
      * done.
      * intros e' [= <-]. auto.
      * intros _. apply orb_false_iff in Hc as [_ Hc].
        by apply negb_false_iff in Hc.
      * done.
    + simpl. intros [= <- <- <-].
      split_and!; [done | apply state_grows_refl | done |].
      intros e' [= <-]. auto.
Qed.

Lemma mkdir_exist_ok_noop s p :
  os.path_isdir s p = true ->
  os.mkdir_exist_ok p true s = (Ok tt, s, [EMkdir p]).
Proof.
  intros Hd. unfold os.mkdir_exist_ok, try_except.
  rewrite (mkdir_isdir s p Hd). munfold. simpl. by rewrite Hd.
Qed.

End operations.

(** ** [os.makedirs] *)

Section makedirs.

Implicit Types (s : state) (p name head tail : string) (q : path).

Lemma makedirs_aux_S fuel name ok :
  os.makedirs_aux (S fuel) name ok =
  let '(head, tail) := os.split_twice name in
  bind (gets id) (fun s =>
    if posixpath.nonempty head && posixpath.nonempty tail
       && negb (os.path_exists s head)
    then
      bind (try_except (os.makedirs_aux fuel head ok)
              (fun e => if os.is_FileExistsError e
                        then Some (ret tt) else None))
           (fun _ => if decide (tail = ".") then ret tt
                     else os.mkdir_exist_ok name ok)
    else os.mkdir_exist_ok name ok).
Proof. done. Qed.

Lemma split_twice_length name head tail :
  os.split_twice name = (head, tail) -> posixpath.nonempty tail = true ->
  String.length head < String.length name.
Proof.
  unfold os.split_twice.
  destruct (posixpath.split name) as [h1 t1] eqn:H1.
  apply split_length in H1.
  destruct (posixpath.nonempty t1) eqn:Ht1.
  - intros [= <- <-] _. destruct t1; [done |]. simpl in *. lia.
  - intros H2%split_length Ht. destruct tail; [done |]. simpl in *. lia.
Qed.

Lemma split_twice_head_isdir s name head tail :
  os.split_twice name = (head, tail) ->
  posixpath.nonempty head = true ->
  os.path_isdir s name = true -> os.path_isdir s head = true.
Proof.
  unfold os.split_twice. intros Hs Hne (Hn & q & Hr & Hd)%path_isdir_resolve.
  destruct (posixpath.split name) as [h1 t1] eqn:H1.
  destruct (posixpath.nonempty t1).
  - injection Hs as -> ->. by eapply path_isdir_head.
  - assert (posixpath.nonempty h1 = true) as Hh1.
    { destruct h1; [| done]. by injection Hs as <- <-. }
    pose proof (path_isdir_head s name h1 t1 q H1 Hh1 Hn Hr)
      as (Hn1 & q1 & Hr1 & _)%path_isdir_resolve.
    by eapply path_isdir_head.
Qed.

(** Whatever [makedirs] does, the file system only grows, and the
    only events are [mkdir] calls. *)
Lemma makedirs_aux_inv fuel name ok s r s' tr :
  os.makedirs_aux fuel name ok s = (r, s', tr) ->
  state_grows s s' /\ Forall (fun e => is_mkdir e = true) tr.
Proof.
  revert name s r s' tr. induction fuel as [|fuel IH]; intros name s r s' tr.
  { intros [= <- <- <-]. split; [apply state_grows_refl | constructor]. }
  rewrite makedirs_aux_S. destruct (os.split_twice name) as [head tail].
  intros [(s0 & ? & ? & t2 & [= <- <- <-] & Hk & ->) | (e & [=] & _)]%bind_inv.
  simpl in Hk.
  assert (forall r s1 s' tr, os.mkdir_exist_ok name ok s1 = (r, s', tr) ->
            state_grows s1 s' /\ Forall (fun e => is_mkdir e = true) tr) as Hleaf.
  { intros ???? (-> & ? & _)%mkdir_exist_ok_inv. split; [done |].
    by repeat constructor. }
  destruct (_ && _ && _); [| by eapply Hleaf].
  apply bind_inv in Hk as [(a & s1 & t1 & t3 & Hrec & Hk & ->) | (e & Hrec & ->)].
  - assert (state_grows s s1 /\ Forall (fun e => is_mkdir e = true) t1) as [Hg1 Ht1].
    { apply try_except_inv in Hrec
        as [(? & Hrec & _) | (e & s2 & t4 & Hrec & [(_ & _ & -> & ->) | (k & t5 & Hh & Hk' & ->)])].
      - by eapply IH.
      - by eapply IH.
      - apply IH in Hrec as [? ?]. destruct (os.is_FileExistsError e); [| done].
        injection Hh as <-. injection Hk' as _ <- <-. by rewrite app_nil_r. }
    case_decide.
    + injection Hk as _ <- <-. simpl. by rewrite app_nil_r.
    + apply Hleaf in Hk as [? ?]. split; [by eapply state_grows_trans |].
      simpl. by apply Forall_app.
  - apply try_except_inv in Hrec
      as [(? & _ & [=]) | (e' & s2 & t4 & Hrec & [(_ & _ & -> & ->) | (k & t5 & Hh & Hk' & ->)])].
    + by eapply IH.
    + apply IH in Hrec as [? ?]. destruct (os.is_FileExistsError e'); [| done].
      injection Hh as <-. by injection Hk' as ?.
Qed.

(** When the last component is not ["."] a normal return means the
    directory is there. *)
Lemma makedirs_aux_isdir fuel name ok s s' tr :
  (os.split_twice name).2 <> "." ->
  os.makedirs_aux fuel name ok s = (Ok tt, s', tr) ->
  os.path_isdir s' name = true.
Proof.
  destruct fuel as [|fuel]; [done |]. rewrite makedirs_aux_S.
  destruct (os.split_twice name) as [head tail]. simpl. intros Hdot.
  intros [(s0 & ? & ? & t2 & [= <- <- <-] & Hk & ->) | (e & [=] & _)]%bind_inv.
  assert (forall s1 s' tr, os.mkdir_exist_ok name ok s1 = (Ok tt, s', tr) ->
            os.path_isdir s' name = true) as Hleaf.
  { intros ??? (_ & _ & H & _)%mkdir_exist_ok_inv. by apply H. }
  destruct (_ && _ && _); [| by eapply Hleaf].
  apply bind_inv in Hk as [(a & s1 & t1 & t3 & Hrec & Hk & ->) | (e & _ & [=])].
  rewrite decide_False in Hk by done. by eapply Hleaf.
Qed.

(** On an existing directory [makedirs(name, exist_ok=True)] changes
    nothing. *)
Lemma makedirs_aux_noop fuel name s :
  os.path_isdir s name = true ->
  os.makedirs_aux (S fuel) name true s = (Ok tt, s, [EMkdir name]).
Proof.
  intros Hd. rewrite makedirs_aux_S.
  destruct (os.split_twice name) as [head tail] eqn:Hs.
  unfold bind at 1. simpl.
  destruct (posixpath.nonempty head) eqn:Hh; simpl.
  - rewrite (path_isdir_exists s head)
      by by eapply split_twice_head_isdir.
    rewrite andb_false_r. by rewrite (mkdir_exist_ok_noop s name Hd).
  - by rewrite (mkdir_exist_ok_noop s name Hd).
Qed.

(** The fuel [makedirs] supplies is never used up. *)
Lemma makedirs_aux_fuel fuel name ok s e s' tr :
  String.length name < fuel ->
  os.makedirs_aux fuel name ok s = (Raise e, s', tr) ->
  os.is_OSError e = true \/ e = os.embedded_null.
Proof.
  revert name s e s' tr. induction fuel as [|fuel IH]; intros name s e s' tr Hlen;
    [lia |].
  rewrite makedirs_aux_S. destruct (os.split_twice name) as [head tail] eqn:Hs.
  intros [(s0 & ? & ? & t2 & [= <- <- <-] & Hk & ->) | (e0 & [=] & _)]%bind_inv.
  simpl in Hk.
  assert (forall s1 s' tr, os.mkdir_exist_ok name ok s1 = (Raise e, s', tr) ->
            os.is_OSError e = true \/ e = os.embedded_null) as Hleaf.
  { intros ??? (_ & _ & _ & H)%mkdir_exist_ok_inv. by apply (H e). }
  destruct (posixpath.nonempty head && posixpath.nonempty tail) eqn:Hne;
    simpl in Hk; [| by eapply Hleaf].
  destruct (negb _); [| by eapply Hleaf].
  apply andb_true_iff in Hne as [_ Hne].
  pose proof (split_twice_length name head tail Hs Hne).
  apply bind_inv in Hk as [(a & s1 & t1 & t3 & Hrec & Hk & ->) | (e1 & Hrec & [= <-])].
  - case_decide; [done | by eapply Hleaf].
  - apply try_except_inv in Hrec
      as [(? & _ & [=]) | (e' & s2 & t4 & Hrec & [(_ & [= <-] & -> & ->) | (k & t5 & Hh & Hk' & ->)])].
    + eapply IH; [| done]. lia.
    + destruct (os.is_FileExistsError e'); [| done].
      injection Hh as <-. by injection Hk' as ?.
Qed.

End makedirs.

(** ** Writing the artifact, and the shape of a run *)

Section runs.

Implicit Types (s : state) (p : string) (q : path) (args : Namespace).

(** [with open(p, "w") as f: f.write(data)] either leaves a file with
    exactly [data] at the path [p] resolves to, or raises and changes
    nothing. *)
Lemma write_inv s p data r s' tr :
  with_open_w p (fun f => file_write f data) s = (r, s', tr) ->
  (exists q, r = Ok tt /\ posixpath.has_nul p = false /\
             os.resolve s p = inr q /\ isdir_at (fs s) q = false /\
             s' = with_fs s (fs_set (fs s) q (NFile data)) /\
             tr = [EOpenW p; EWrite q data]) \/
  (exists e, r = Raise e /\ s' = s /\ tr = [EOpenW p] /\
             (os.is_OSError e = true \/ e = os.embedded_null)).
Proof.
  unfold with_open_w, open_w, file_write, file_close. munfold. simpl.
  destruct (posixpath.has_nul p); simpl.
  { intros [= <- <- <-]. right. eauto 6. }
  destruct (os.resolve s p) as [e|q] eqn:Hr.
  { intros [= <- <- <-]. right. eauto 8. }
  unfold isdir_at.
  destruct (node_at (fs s) q) as [[c|]|] eqn:Hq; simpl;
    rewrite ?fs_get_set_eq, ?fs_set_set; simpl.
  - intros [= <- <- <-]. left. exists q. split_and!; try done. by rewrite Hq.
  - intros [= <- <- <-]. right. eauto 8.
  - intros [= <- <- <-]. left. exists q. split_and!; try done. by rewrite Hq.
Qed.

Lemma epochs_run s :
  for_range epochs epoch_body s = (Ok tt, s, epochs_trace).
Proof. done. Qed.

(** [train] is: echo the arguments, list, echo the listing, five
    epochs, then [persist]. *)
Lemma train_listed args s :
  os.path_isdir s (training_dir args) = true ->
  exists q,
    os.resolve s (training_dir args) = inr q /\
    forall r s' tr,
      persist args s = (r, s', tr) ->
      train args s =
      (r, s',
       [EPrint [PStr "args"; PNamespace args];
        EListdir (training_dir args);
        EPrint [PStr "listing training files"; PList (children (fs s) q)]]
       ++ epochs_trace ++ tr).
Proof.
  intros (q & Hq & Hl)%listdir_ok. exists q. split; [done |].
  intros r s' tr Hp. unfold train, print.
  change (bind (os.makedirs (posixpath.dirname (model_filename args)) true) _)
    with (persist args).
  unfold bind at 1. simpl. unfold bind at 1. rewrite Hl.
  unfold bind at 1. simpl. unfold bind at 1. rewrite epochs_run.
  by rewrite Hp.
Qed.

Lemma train_unlisted args s :
  os.path_isdir s (training_dir args) = false ->
  exists e,
    train args s =
    (Raise e, s,
     [EPrint [PStr "args"; PNamespace args]; EListdir (training_dir args)])
    /\ DirectoryNotFound e = true
    /\ os.listdir (training_dir args) s
       = (Raise e, s, [EListdir (training_dir args)]).
Proof.
  intros (e & Hl & He)%listdir_err. exists e. split_and!; [| done | done].
  unfold train, print. unfold bind at 1. simpl. unfold bind at 1.
  by rewrite Hl.
Qed.

(** What a [persist] that returns has done. *)
Lemma persist_ok args s s' tr :
  persist args s = (Ok tt, s', tr) ->
  exists s1 t1 q,
    os.makedirs (posixpath.dirname (model_filename args)) true s
      = (Ok tt, s1, t1) /\
    state_grows s s1 /\ Forall (fun e => is_mkdir e = true) t1 /\
    posixpath.has_nul (model_filename args) = false /\
    os.resolve s1 (model_filename args) = inr q /\
    isdir_at (fs s1) q = false /\
    s' = with_fs s1 (fs_set (fs s1) q (NFile "Dummy model.")) /\
    tr = t1 ++ [EOpenW (model_filename args); EWrite q "Dummy model."].
Proof.
  unfold persist.
  intros [(a & s1 & t1 & t2 & Hm & Hw & ->) | (e & _ & [=])]%bind_inv.
  destruct a.
  pose proof Hm as [Hg Ht]%makedirs_aux_inv.
  apply write_inv in Hw
    as [(q & _ & Hn & Hr & Hd & -> & ->) | (e & [=] & _)].
  exists s1, t1, q. by split_and!.
Qed.

(** When [persist] raises, no file has been written. *)
Lemma persist_raise args s e s' tr :
  persist args s = (Raise e, s', tr) ->
  state_grows s s' /\ (os.is_OSError e = true \/ e = os.embedded_null) /\
  Forall (fun ev => match ev with EWrite _ _ => False | _ => True end) tr.
Proof.
  unfold persist.
  intros [(a & s1 & t1 & t2 & Hm & Hw & ->) | (e' & Hm & [= <-])]%bind_inv.
  - pose proof Hm as [Hg Ht]%makedirs_aux_inv.
    apply write_inv in Hw
      as [(q & [=] & _) | (e' & [= <-] & -> & -> & He)].
    split_and!; [done | done |].
    apply Forall_app. split; [| by repeat constructor].
    eapply Forall_impl; [exact Ht |]. by intros [].
  - pose proof Hm as [Hg Ht]%makedirs_aux_inv. split_and!; [done | |].
    + eapply makedirs_aux_fuel; [| exact Hm]. lia.
    + eapply Forall_impl; [exact Ht |]. by intros [].
Qed.

End runs.

(** ** More on names, tables and writes *)

Section more_lemmas.

Import posixpath.

Implicit Types (s : state) (p m : string) (q d : path) (t : fstree).

Lemma has_sep_app_sep (x y : string) : has_sep (x +:+ String sep y) = true.
Proof.
  induction x as [|c x IH]; simpl; [done |]. by rewrite IH, orb_true_r.
Qed.

Lemma split_snd (p : string) : (split p).2 = basename p.
Proof.
  unfold split, basename. destruct (rpartition p) as [h t0]. simpl.
  by destruct (nonempty h && negb (all_sep h)).
Qed.

Lemma ends_with_sep_app_sep (x : string) :
  ends_with_sep (x +:+ String sep EmptyString) = true.
Proof.
  induction x as [|c x IH]; [done |].
  simpl. rewrite IH. by destruct x.
Qed.

Lemma not_ends_all_sep (m : string) :
  nonempty m = true -> ends_with_sep m = false -> all_sep m = false.
Proof.
  induction m as [|c m IH]; [done |]. intros _. simpl.
  destruct m as [|c' m'].
  - intros ->. done.
  - intros H. rewrite IH by done. apply andb_false_r.
Qed.

Lemma not_ends_rstrip (m : string) : ends_with_sep m = false -> rstrip m = m.
Proof.
  induction m as [|c m IH]; [done |]. simpl.
  destruct m as [|c' m'].
  - intros ->. done.
  - intros H. rewrite IH by done. done.
Qed.

Lemma not_ends_basename (m : string) :
  nonempty m = true -> ends_with_sep m = false ->
  nonempty (basename m) = true.
Proof.
  intros Hne He. unfold basename.
  destruct (sep_cases m) as [Hm | (x & t0 & -> & Ht)].
  - rewrite (rpartition_nosep m Hm). done.
  - rewrite (rpartition_app x t0 Ht). simpl. destruct t0; [| done].
    by rewrite ends_with_sep_app_sep in He.
Qed.

(** [dirname(m + "/model.dummy")] *)
Lemma split_model_filename (m : string) :
  split (m +:+ "/model.dummy") =
  (if all_sep m then m +:+ "/" else rstrip m, "model.dummy").
Proof.
  unfold split.
  change (m +:+ "/model.dummy") with (m +:+ String sep "model.dummy").
  rewrite rpartition_app by done.
  rewrite nonempty_app_sep, all_sep_app_sep, rstrip_app_sep.
  by destruct (all_sep m).
Qed.

Lemma dirname_model_filename_nonempty (m : string) :
  nonempty (dirname (m +:+ "/model.dummy")) = true.
Proof.
  unfold dirname. rewrite split_model_filename. simpl.
  destruct (all_sep m) eqn:Hm.
  - apply nonempty_app_sep.
  - by apply rstrip_nonempty.
Qed.

(** A write leaves every name where it led. *)
Lemma resolve_after_write s q c p q' :
  isdir_at (fs s) q = false ->
  os.resolve s p = inr q' ->
  os.resolve (with_fs s (fs_set (fs s) q (NFile c))) p = inr q'.
Proof.
  intros Hq. unfold os.resolve. simpl.
  destruct (nonempty p); [| done].
  apply walk_mono. intros q0. by rewrite isdir_set_file.
Qed.

Lemma isdir_after_write s q c p :
  isdir_at (fs s) q = false ->
  os.path_isdir s p = true ->
  os.path_isdir (with_fs s (fs_set (fs s) q (NFile c))) p = true.
Proof.
  intros Hq (Hn & q' & Hr & Hd)%path_isdir_resolve. apply path_isdir_resolve.
  split; [done |]. exists q'. split; [by apply resolve_after_write |].
  simpl. by rewrite isdir_set_file.
Qed.

Lemma write_ok s p data q :
  has_nul p = false -> os.resolve s p = inr q -> isdir_at (fs s) q = false ->
  with_open_w p (fun f => file_write f data) s =
  (Ok tt, with_fs s (fs_set (fs s) q (NFile data)), [EOpenW p; EWrite q data]).
Proof.
  intros Hn Hr Hd.
  unfold with_open_w, open_w, file_write, file_close.
  unfold bind, ret, raise, gets, emit, put_fs, finally, id. simpl.
  rewrite Hn. simpl. rewrite Hr. unfold isdir_at in Hd.
  destruct (node_at (fs s) q) as [[c|]|] eqn:Hq; [| done |]; simpl;
    by rewrite ?fs_get_set_eq, ?fs_set_set.
Qed.

(** Directory entries. *)

Lemma child_name_Some d k c : child_name d k = Some c <-> k = d ++ [c].
Proof.
  unfold child_name, parent. split.
  - destruct (last k) as [c'|] eqn:Hl; [| done].
    case_decide as Hp; [| done]. intros [= <-].
    apply last_Some in Hl as [k' ->].
    by rewrite removelast_last in Hp; subst.
  - intros ->. rewrite last_snoc, removelast_last. by rewrite decide_True.
Qed.

Lemma elem_of_children t d c :
  c ∈ children t d <-> is_Some (fs_get t (d ++ [c])).
Proof.
  unfold children. rewrite list_elem_of_omap.
  rewrite <-not_eq_None_Some, fs_get_None. split.
  - intros ([k n] & Hin & Hc%child_name_Some) Hnot. simpl in Hc. subst k.
    apply Hnot. apply list_elem_of_fmap. by exists (d ++ [c], n).
  - intros Hin. destruct (decide (d ++ [c] ∈ t.*1)) as [Hk|]; [| done].
    apply list_elem_of_fmap in Hk as ([k n] & Hk & Hkn). simpl in Hk.
    exists (k, n). split; [done |]. apply child_name_Some. by subst.
Qed.

Lemma NoDup_children t d : wf_fs t -> NoDup (children t d).
Proof.
  unfold wf_fs, children. induction t as [|[k n] t IH]; simpl.
  { intros _. constructor. }
  intros [Hk Ht]%NoDup_cons. specialize (IH Ht).
  destruct (child_name d k) as [c|] eqn:Hc; [| done].
  constructor; [| done]. apply child_name_Some in Hc as ->.
  intros Hin%elem_of_children. apply Hk.
  apply not_eq_None_Some in Hin. by rewrite fs_get_None in Hin; apply dec_stable.
Qed.

End more_lemmas.

(** ** The command line and the entry point *)

Section entry_point.

Implicit Types (s : state) (args ns : Namespace).



Lemma tokenize_cons x l :
  argparse.tokenize (x :: l) =
  if String.eqb x "--" then Some ([], true)
  else match argparse.parse_optional x with
       | None => None
       | Some t =>
           match argparse.tokenize l with
           | Some (ts, dd) => Some (t :: ts, dd)
           | None => None
           end
       end.
Proof. done. Qed.

Lemma parse_optional_plain v :
  String.prefix "-" v = false ->
  argparse.parse_optional v = Some (argparse.TArg v)
  /\ String.eqb v "--" = false.
Proof.
  destruct v as [|c v]; [done |]. simpl.
  destruct (Ascii.ascii_dec "-" c) as [<-|Hc]; [by destruct v |].
  intros _. assert (Ascii.eqb c "-" = false) as Hc'.
  { apply Ascii.eqb_neq. congruence. }
  by rewrite Hc'.
Qed.



Lemma main_run s d t :
  environ s !! "SM_MODEL_DIR" = Some d ->
  environ s !! "SM_CHANNEL_TRAIN" = Some t ->
  main s =
  bind (argparse.parse_args
          {| model_dir := d; checkpoint_dir := "/opt/ml/checkpoints";
             training_dir := t |}) train s.
Proof.
  intros Hd Ht. unfold main, os.environ_getitem.
  unfold bind at 1. unfold bind at 1. simpl. rewrite Hd. simpl.
  unfold bind at 1. unfold bind at 1. simpl. rewrite Ht. simpl.
  destruct (bind _ train s) as [[r s'] tr]. done.
Qed.


End entry_point.

(** ** Properties of the training job *)

(** A run that returns has listed the training directory, run the five
    epochs and persisted. *)
Lemma train_ok_inv (args : Namespace) (s s' : state) (tr : list event) :
  train args s = (Ok tt, s', tr) ->
  os.path_isdir s (training_dir args) = true /\
  exists q t,
    os.resolve s (training_dir args) = inr q /\
    persist args s = (Ok tt, s', t) /\
    tr = [EPrint [PStr "args"; PNamespace args];
          EListdir (training_dir args);
          EPrint [PStr "listing training files"; PList (children (fs s) q)]]
         ++ epochs_trace ++ t.
Proof.
  destruct (os.path_isdir s (training_dir args)) eqn:Hd.
  - destruct (train_listed args s Hd) as (q & Hq & Ht).
    destruct (persist args s) as [[r1 s1] t1] eqn:Hp.
    rewrite (Ht _ _ _ eq_refl). intros [= -> <- <-].
    split; [done |]. by exists q, t1.
  - by destruct (train_unlisted args s Hd) as (e' & -> & He & _).
Qed.

(** C1.  After a successful run the file [<model_dir>/model.dummy]
    exists, and reading it back yields exactly the literal
    ["Dummy model."]. *)
Theorem artifact_written (args : Namespace) (s s' : state) (tr : list event) :
  train args s = (Ok tt, s', tr) ->
  read_text s' (model_dir args +:+ "/model.dummy") = Some "Dummy model.".
Proof.
  intros (_ & _ & t & _ & Hp & _)%train_ok_inv.
  apply persist_ok in Hp
    as (s1 & t1 & q & _ & _ & _ & Hn & Hr & Hd & -> & _).
  fold (model_filename args).
  unfold read_text, os.lookup_path. rewrite Hn.
  rewrite (resolve_after_write s1 q _ _ q Hd Hr). simpl.
  rewrite node_at_set_eq; [done |]. by intros ->.
Qed.

Lemma artifact_written_witness :
  exists s' tr,
    train sample_args sample_state = (Ok tt, s', tr) /\
    read_text s' "/tmp/out/model.dummy" = Some "Dummy model.".
Proof.
  exists (train sample_args sample_state).1.2,
         (train sample_args sample_state).2.
  assert (train sample_args sample_state =
          (Ok tt, (train sample_args sample_state).1.2,
           (train sample_args sample_state).2)) as H
    by (vm_compute; reflexivity).
  split; [exact H |].
  exact (artifact_written sample_args sample_state _ _ H).
Defined.

(** C4.  When [SM_MODEL_DIR] is not set the job fails with
    [KeyError('SM_MODEL_DIR')] (ConfigurationMissing) whatever the
    command line holds, so in particular without [--model-dir]; the
    failure comes before any event: nothing is listed, printed or
    written, and the state is untouched. *)
Theorem missing_model_dir (s : state) :
  environ s !! "SM_MODEL_DIR" = None ->
  main s = (Raise (KeyError "SM_MODEL_DIR"), s, []) /\
  ConfigurationMissing (KeyError "SM_MODEL_DIR") = true.
Proof.
  intros Hd. split; [| done]. unfold main, os.environ_getitem.
  unfold bind at 1. unfold bind at 1. simpl. by rewrite Hd.
Qed.

Lemma missing_model_dir_witness :
  environ (mkState [] [] ∅ []) !! "SM_MODEL_DIR" = None /\
  main (mkState [] [] ∅ []) =
  (Raise (KeyError "SM_MODEL_DIR"), mkState [] [] ∅ [], []).
Proof.
  split; [reflexivity |].
  exact (proj1 (missing_model_dir (mkState [] [] ∅ []) eq_refl)).
Defined.

(** C5.  The work loop is five iterations, each one print, one
    [sleep(2)] and one print, whatever the state; and a run that
    returns is the sequence list, simulate, persist: the echo of the
    arguments, the one listing and its echo, the five epochs, the
    [mkdir] calls of [makedirs], then the opening and the write of the
    artifact. *)
Theorem linear_sequence (args : Namespace) (s s' : state) (tr : list event) :
  train args s = (Ok tt, s', tr) ->
  for_range epochs epoch_body s = (Ok tt, s, epochs_trace) /\
  List.filter is_sleep epochs_trace = replicate 5 (ESleep 2) /\
  exists tmp mk q,
    tr = [EPrint [PStr "args"; PNamespace args];
          EListdir (training_dir args);
          EPrint [PStr "listing training files"; PList tmp]]
         ++ epochs_trace
         ++ mk ++ [EOpenW (model_dir args +:+ "/model.dummy");
                   EWrite q "Dummy model."] /\
    Forall (fun e => is_mkdir e = true) mk /\
    List.filter is_sleep tr = replicate 5 (ESleep 2).
Proof.
  intros (_ & q0 & t & _ & Hp & ->)%train_ok_inv.
  split; [done |]. split; [done |].
  apply persist_ok in Hp as (s1 & t1 & q & _ & _ & Ht1 & _ & _ & _ & _ & ->).
  exists (children (fs s) q0), t1, q. split_and!; [done | done |].
  rewrite !List.filter_app. simpl.
  assert (List.filter is_sleep t1 = []) as ->; [| done].
  clear -Ht1. induction Ht1 as [|e l He _ IH]; [done |].
  simpl. rewrite IH. by destruct e.
Qed.

Lemma linear_sequence_witness :
  exists s' tr,
    train sample_args sample_state = (Ok tt, s', tr) /\
    List.filter is_sleep tr = replicate 5 (ESleep 2).
Proof.
  exists (train sample_args sample_state).1.2,
         (train sample_args sample_state).2.
  assert (train sample_args sample_state =
          (Ok tt, (train sample_args sample_state).1.2,
           (train sample_args sample_state).2)) as H
    by (vm_compute; reflexivity).
  split; [exact H |].
  destruct (linear_sequence sample_args sample_state _ _ H)
    as (_ & _ & tmp & mk & q & _ & _ & Hs).
  exact Hs.
Defined.







Lemma filter_mkdirs (f : event -> bool) (l : list event) :
  (forall p, f (EMkdir p) = false) ->
  Forall (fun e => is_mkdir e = true) l -> List.filter f l = [].
Proof.
  intros Hf. induction 1 as [|e l He _ IH]; [done |].
  simpl. rewrite IH. destruct e; try done. by rewrite Hf.
Qed.

(** After a run that returned, the artifact is in place: its name
    resolves, its directory exists, and the node is a file. *)
Lemma after_run (args : Namespace) (s s1 : state) (tr : list event) :
  train args s = (Ok tt, s1, tr) ->
  exists sm q,
    state_grows s sm /\
    isdir_at (fs sm) q = false /\
    s1 = with_fs sm (fs_set (fs sm) q (NFile "Dummy model.")) /\
    posixpath.has_nul (model_filename args) = false /\
    os.resolve s1 (model_filename args) = inr q /\
    isdir_at (fs s1) q = false /\
    os.path_isdir s1 (training_dir args) = true /\
    os.path_isdir s1 (posixpath.dirname (model_filename args)) = true.
Proof.
  intros (Hd & _ & t & _ & Hp & _)%train_ok_inv.
  apply persist_ok in Hp
    as (sm & t1 & q & _ & Hg & _ & Hn & Hr & Hq & -> & _).
  exists sm, q.
  pose proof (resolve_after_write sm q "Dummy model." _ q Hq Hr) as Hr1.
  split_and!; try done.
  - simpl. by rewrite isdir_set_file.
  - apply isdir_after_write; [done |]. by eapply state_grows_isdir.
  - eapply path_isdir_head; [| | exact Hn | exact Hr1].
    + unfold posixpath.dirname. apply surjective_pairing.
    + apply dirname_model_filename_nonempty.
Qed.

(** C6.  Running the job again on the state the first run left
    succeeds and leaves that state exactly as it was: [makedirs]
    accepts the existing directory and creates nothing, the artifact
    is rewritten with the same content, and the table of entries is
    the same, so no entry is added or duplicated. *)
Theorem rerun_idempotent (args : Namespace) (s s1 : state) (tr : list event) :
  train args s = (Ok tt, s1, tr) ->
  (exists tr', train args s1 = (Ok tt, s1, tr')) /\
  os.makedirs (posixpath.dirname (model_filename args)) true s1
    = (Ok tt, s1, [EMkdir (posixpath.dirname (model_filename args))]) /\
  read_text s1 (model_filename args) = Some "Dummy model." /\
  (wf_fs (fs s) -> wf_fs (fs s1)).
Proof.
  intros Hrun.
  destruct (after_run args s s1 tr Hrun)
    as (sm & q & Hg & Hq & Hs1 & Hn & Hr1 & Hq1 & Htd & Hdir).
  assert (os.makedirs (posixpath.dirname (model_filename args)) true s1
          = (Ok tt, s1, [EMkdir (posixpath.dirname (model_filename args))]))
    as Hmk by by apply makedirs_aux_noop.
  assert (persist args s1 =
          (Ok tt, s1, [EMkdir (posixpath.dirname (model_filename args));
                       EOpenW (model_filename args);
                       EWrite q "Dummy model."])) as Hp.
  { unfold persist, bind. rewrite Hmk.
    rewrite (write_ok s1 _ "Dummy model." q Hn Hr1 Hq1).
    assert (with_fs s1 (fs_set (fs s1) q (NFile "Dummy model.")) = s1) as ->;
      [| done].
    clear -Hs1. subst s1. unfold with_fs. simpl. by rewrite fs_set_set. }
  split_and!.
  - destruct (train_listed args s1 Htd) as (q' & _ & Ht).
    eexists. by apply Ht.
  - done.
  - unfold read_text, os.lookup_path. rewrite Hn, Hr1, Hs1. simpl.
    rewrite node_at_set_eq; [done |]. by intros ->.
  - intros Hwf. rewrite Hs1. simpl. apply wf_fs_set.
    destruct Hg as [Hg _]. by eapply grows_wf.
Qed.

Lemma rerun_idempotent_witness :
  exists s1 tr tr',
    train sample_args sample_state = (Ok tt, s1, tr) /\
    train sample_args s1 = (Ok tt, s1, tr').
Proof.
  assert (train sample_args sample_state =
          (Ok tt, (train sample_args sample_state).1.2,
           (train sample_args sample_state).2)) as H
    by (vm_compute; reflexivity).
  destruct (rerun_idempotent sample_args sample_state _ _ H)
    as [[tr' Hrerun] _].
  eexists _, _, tr'. split; [exact H | exact Hrerun].
Defined.

(** C7, as stated, fails: [/data] holds exactly the files [a.csv] and
    [b.csv], and the listing is [["b.csv"; "a.csv"]], because that is
    the order in which the file system enumerates them. *)
Lemma listing_in_enumeration_order :
  entries_are (fs reversed_state) ["data"] ["a.csv"; "b.csv"] /\
  os.listdir "/data" reversed_state
    = (Ok ["b.csv"; "a.csv"], reversed_state, [EListdir "/data"]) /\
  ["b.csv"; "a.csv"] <> ["a.csv"; "b.csv"].
Proof.
  split_and!; [| by vm_compute | done].
  intros c. rewrite <-elem_of_children.
  change (children (fs reversed_state) ["data"]) with ["b.csv"; "a.csv"].
  rewrite !elem_of_cons, !elem_of_nil. tauto.
Qed.

(** C7, amended.  [os.listdir] reports the entries of the directory in
    the order in which the file system enumerates them, unsorted.  For
    a [training_dir] holding exactly [a.csv] and [b.csv] the listing
    consists of these two names, each once, and is [["a.csv";
    "b.csv"]] or [["b.csv"; "a.csv"]] according to that order. *)
Theorem listing_order (s : state) (p : string) (q : path) :
  wf_fs (fs s) ->
  posixpath.has_nul p = false ->
  os.resolve s p = inr q ->
  isdir_at (fs s) q = true ->
  entries_are (fs s) q ["a.csv"; "b.csv"] ->
  os.listdir p s = (Ok (children (fs s) q), s, [EListdir p]) /\
  children (fs s) q ≡ₚ ["a.csv"; "b.csv"] /\
  (children (fs s) q = ["a.csv"; "b.csv"] \/
   children (fs s) q = ["b.csv"; "a.csv"]).
Proof.
  intros Hwf Hn Hr Hd He.
  assert (os.path_isdir s p = true) as Hp.
  { apply path_isdir_resolve. eauto. }
  destruct (listdir_ok s p Hp) as (q' & Hr' & Hl).
  assert (q' = q) as -> by congruence.
  assert (children (fs s) q ≡ₚ ["a.csv"; "b.csv"]) as Hperm.
  { apply NoDup_Permutation.
    - by apply NoDup_children.
    - apply NoDup_cons. split; [| apply NoDup_singleton].
      by intros [=]%list_elem_of_singleton.
    - intros c. rewrite elem_of_children. apply He. }
  split_and!; [done | done |].
  symmetry in Hperm. by apply Permutation_length_2_inv in Hperm.
Qed.

Lemma listing_order_witness :
  os.listdir "/data" sample_state
    = (Ok ["a.csv"; "b.csv"], sample_state, [EListdir "/data"]) /\
  children (fs reversed_state) ["data"] ≡ₚ ["a.csv"; "b.csv"].
Proof.
  assert (forall s, children (fs s) ["data"] ≡ₚ ["a.csv"; "b.csv"] ->
                    entries_are (fs s) ["data"] ["a.csv"; "b.csv"]) as Hent.
  { intros s Hs c. rewrite <-elem_of_children. by rewrite Hs. }
  split.
  - refine (proj1 (listing_order sample_state "/data" ["data"] _ _ _ _ _)).
    + unfold wf_fs. apply (bool_decide_unpack _). by vm_compute.
    + reflexivity.
    + reflexivity.
    + reflexivity.
    + apply Hent. reflexivity.
  - refine (proj1 (proj2
             (listing_order reversed_state "/data" ["data"] _ _ _ _ _))).
    + unfold wf_fs. apply (bool_decide_unpack _). by vm_compute.
    + reflexivity.
    + reflexivity.
    + reflexivity.
    + apply Hent. apply perm_swap.
Defined.



(** C9, as stated, fails: two configurations that differ only in
    [checkpoint_dir] give different runs, since the first thing
    [train] does is print its arguments. *)
Lemma checkpoint_dir_is_echoed :
  same_but_checkpoint sample_args other_checkpoint_args /\
  train sample_args sample_state <> train other_checkpoint_args sample_state.
Proof.
  split; [done |]. intros H.
  apply (f_equal (fun r => head r.2)) in H. vm_compute in H. done.
Qed.

(** C9, amended.  [checkpoint_dir] reaches nothing but the echo of the
    arguments printed first: two runs whose configurations differ only
    in [checkpoint_dir] have the same outcome, leave the same state
    and produce the same events after that first print. *)
Theorem checkpoint_dir_only_echoed (a1 a2 : Namespace) (s : state) :
  same_but_checkpoint a1 a2 ->
  exists r s' t,
    train a1 s = (r, s', EPrint [PStr "args"; PNamespace a1] :: t) /\
    train a2 s = (r, s', EPrint [PStr "args"; PNamespace a2] :: t).
Proof.
  destruct a1 as [m c1 d], a2 as [m' c2 d']. intros [Hm Hd].
  simpl in Hm, Hd. subst m' d'.
  unfold train, print, model_filename. simpl.
  set (rest := bind (os.listdir d) _).
  unfold bind, emit. simpl.
  destruct (rest s) as [[r s'] t]. by exists r, s', t.
Qed.

Lemma checkpoint_dir_only_echoed_witness :
  exists r s' t,
    train sample_args sample_state
      = (r, s', EPrint [PStr "args"; PNamespace sample_args] :: t) /\
    train other_checkpoint_args sample_state
      = (r, s', EPrint [PStr "args"; PNamespace other_checkpoint_args] :: t).
Proof.
  apply (checkpoint_dir_only_echoed sample_args other_checkpoint_args).
  split; reflexivity.
Defined.

(** C10, as stated, fails: [model_dir = "new/../f/."] is non-empty and
    does not end in a separator, [dirname] of the artifact path is
    [model_dir] itself, and [makedirs] returns normally; yet [f] is a
    regular file, so when the artifact is opened its directory does
    not exist, and [open] raises [NotADirectoryError]. *)
Lemma makedirs_returns_without_directory :
  posixpath.nonempty dotted_model_dir = true /\
  ends_with_sep dotted_model_dir = false /\
  posixpath.dirname (dotted_model_dir +:+ "/model.dummy") = dotted_model_dir /\
  (os.makedirs dotted_model_dir true dotted_state).1.1 = Ok tt /\
  os.path_isdir (os.makedirs dotted_model_dir true dotted_state).1.2
    dotted_model_dir = false /\
  (train {| model_dir := dotted_model_dir;
            checkpoint_dir := "/opt/ml/checkpoints";
            training_dir := "." |} dotted_state).1.1
    = Raise (OSError ENOTDIR "new/../f/./model.dummy").
Proof. by vm_compute. Qed.

(** C10, amended.  The artifact path is the plain concatenation
    [model_dir + "/model.dummy"].  For a non-empty [model_dir] that
    does not end in a separator, [dirname] of that path is [model_dir]
    itself; if moreover the last component of [model_dir] is not
    ["."], then whenever [makedirs] returns, [model_dir] is an
    existing directory when the artifact is opened. *)
Theorem artifact_directory (args : Namespace) :
  posixpath.nonempty (model_dir args) = true ->
  ends_with_sep (model_dir args) = false ->
  model_filename args = model_dir args +:+ "/model.dummy" /\
  posixpath.dirname (model_filename args) = model_dir args /\
  (posixpath.basename (model_dir args) <> "." ->
   forall s s' tr,
     os.makedirs (posixpath.dirname (model_filename args)) true s
       = (Ok tt, s', tr) ->
     os.path_isdir s' (model_dir args) = true).
Proof.
  intros Hne Hend. split; [done |].
  assert (posixpath.dirname (model_filename args) = model_dir args) as Hdn.
  { unfold posixpath.dirname, model_filename.
    rewrite split_model_filename, not_ends_all_sep by done.
    by apply not_ends_rstrip. }
  split; [done |]. rewrite Hdn. intros Hdot s s' tr.
  apply makedirs_aux_isdir. unfold os.split_twice.
  pose proof (split_snd (model_dir args)) as Hs.
  destruct (posixpath.split (model_dir args)) as [h t0]. simpl in Hs.
  subst t0. by rewrite not_ends_basename.
Qed.

Lemma artifact_directory_witness :
  posixpath.dirname "/tmp/out/model.dummy" = "/tmp/out" /\
  os.path_isdir (os.makedirs "/tmp/out" true sample_state).1.2 "/tmp/out"
    = true.
Proof.
  destruct (artifact_directory sample_args) as (_ & Hd & Hm);
    [reflexivity | reflexivity |].
  split; [exact Hd |].
  apply (Hm ltac:(vm_compute; discriminate) sample_state _
            (os.makedirs "/tmp/out" true sample_state).2).
  vm_compute. reflexivity.
Defined.

(** ** Further properties of [train] and of the entry point *)


(** The events of [persist]: [mkdir] calls, then at most the opening
    and the write of the artifact. *)
Lemma persist_trace (args : Namespace) (s s' : state) (r : outcome unit)
      (tr : list event) :
  persist args s = (r, s', tr) ->
  exists t1 t2,
    tr = t1 ++ t2 /\ Forall (fun e => is_mkdir e = true) t1 /\
    (t2 = [] \/ t2 = [EOpenW (model_filename args)] \/
     exists q, t2 = [EOpenW (model_filename args); EWrite q "Dummy model."]).
Proof.
  unfold persist.
  intros [(a & s1 & t1 & t2 & Hm & Hw & ->) | (e & Hm & ->)]%bind_inv.
  - apply makedirs_aux_inv in Hm as [_ Ht].
    exists t1, t2. split_and!; [done | done |].
    apply write_inv in Hw
      as [(q & _ & _ & _ & _ & _ & ->) | (e & _ & _ & -> & _)]; eauto.
  - apply makedirs_aux_inv in Hm as [_ Ht].
    exists tr, []. rewrite app_nil_r. eauto.
Qed.

(** A run that raises stopped at the listing or in [persist]. *)
Lemma train_raise_inv (args : Namespace) (s s' : state) (e : exn)
      (tr : list event) :
  train args s = (Raise e, s', tr) ->
  (os.path_isdir s (training_dir args) = false /\ s' = s /\
   DirectoryNotFound e = true /\
   tr = [EPrint [PStr "args"; PNamespace args];
         EListdir (training_dir args)]) \/
  (os.path_isdir s (training_dir args) = true /\
   exists t, persist args s = (Raise e, s', t)).
Proof.
  destruct (os.path_isdir s (training_dir args)) eqn:Hd.
  - destruct (train_listed args s Hd) as (q & _ & Ht).
    destruct (persist args s) as [[r1 s1] t1] eqn:Hp.
    rewrite (Ht _ _ _ eq_refl). intros [= -> <- <-]. right. eauto.
  - destruct (train_unlisted args s Hd) as (e' & -> & He & _).
    intros [= <- <- <-]. by left.
Qed.





(** X3.  Nothing about [model_dir] is looked at before the loop: once
    the listing has succeeded, the five epochs with their five
    [sleep(2)] always run, and only then does the run end the way
    [persist] ends.  An unusable [model_dir] is therefore found only
    after all five epochs. *)
Theorem epochs_precede_persist (args : Namespace) (s : state) :
  os.path_isdir s (training_dir args) = true ->
  exists tmp t,
    train args s =
    ((persist args s).1.1, (persist args s).1.2,
     [EPrint [PStr "args"; PNamespace args];
      EListdir (training_dir args);
      EPrint [PStr "listing training files"; PList tmp]]
     ++ epochs_trace ++ t) /\
    t = (persist args s).2 /\
    List.filter is_sleep t = [] /\
    List.filter is_sleep (train args s).2 = replicate 5 (ESleep 2).
Proof.
  intros Hd. destruct (train_listed args s Hd) as (q & _ & Ht).
  destruct (persist args s) as [[r s'] t] eqn:Hp.
  exists (children (fs s) q), t. rewrite (Ht _ _ _ eq_refl). cbn [fst snd].
  assert (List.filter is_sleep t = []) as Hs.
  { apply persist_trace in Hp as (t1 & t2 & -> & H1 & H2).
    rewrite List.filter_app, (filter_mkdirs is_sleep t1) by done.
    by destruct H2 as [-> | [-> | [q' ->]]]. }
  split_and!; try done.
  by rewrite !List.filter_app, Hs.
Qed.

Lemma epochs_precede_persist_witness :
  List.filter is_sleep (train sample_args blocked_state).2
  = replicate 5 (ESleep 2).
Proof.
  destruct (epochs_precede_persist sample_args blocked_state)
    as (tmp & t & _ & _ & _ & H); [reflexivity | exact H].
Defined.

(** The artifact path and the model directory. *)

Lemma dirname_model_filename (m : string) :
  posixpath.nonempty m = true -> ends_with_sep m = false ->
  posixpath.dirname (m +:+ "/model.dummy") = m.
Proof.
  intros Hne Hend. unfold posixpath.dirname.
  rewrite split_model_filename, not_ends_all_sep by done.
  by apply not_ends_rstrip.
Qed.

Lemma components_model_filename (m : string) :
  posixpath.components (m +:+ "/model.dummy")
  = posixpath.components m ++ ["model.dummy"].
Proof.
  change (m +:+ "/model.dummy") with (m +:+ String posixpath.sep "model.dummy").
  by rewrite components_app_sep.
Qed.

Lemma has_nul_model_filename (m : string) :
  posixpath.has_nul (m +:+ "/model.dummy") = posixpath.has_nul m.
Proof. rewrite has_nul_app. apply orb_false_r. Qed.

Lemma resolve_model_filename (s : state) (m : string) (q : path) :
  os.resolve s m = inr q -> isdir_at (fs s) q = true ->
  os.resolve s (m +:+ "/model.dummy") = inr (q ++ ["model.dummy"]).
Proof.
  unfold os.resolve. destruct (posixpath.nonempty m) eqn:Hm; [| done].
  intros Hw Hd. assert (posixpath.nonempty (m +:+ "/model.dummy") = true) as ->
    by by destruct m.
  rewrite isabs_app, components_model_filename, walk_app, Hw by done.
  simpl. unfold isdir_at in Hd. by destruct (node_at (fs s) q) as [[]|].
Qed.

Lemma resolve_model_filename_inv (s : state) (m : string) (q' : path) :
  posixpath.nonempty m = true ->
  os.resolve s (m +:+ "/model.dummy") = inr q' ->
  exists q, os.resolve s m = inr q /\ isdir_at (fs s) q = true /\
            q' = q ++ ["model.dummy"].
Proof.
  unfold os.resolve. intros Hm. rewrite Hm.
  assert (posixpath.nonempty (m +:+ "/model.dummy") = true) as ->
    by by destruct m.
  rewrite isabs_app, components_model_filename, walk_app by done.
  destruct (walk _ _ (posixpath.components m)) as [e|q]; [done |].
  intros Hw. pose proof (walk_cons_isdir _ _ _ _ _ Hw) as Hd.
  exists q. split_and!; [done | done |].
  simpl in Hw. unfold isdir_at in Hd.
  destruct (node_at (fs s) q) as [[]|]; [done | | done]. congruence.
Qed.

Lemma write_isdir (s : state) (p data : string) (q : path) :
  posixpath.has_nul p = false -> os.resolve s p = inr q ->
  isdir_at (fs s) q = true ->
  with_open_w p (fun f => file_write f data) s
  = (Raise (OSError EISDIR p), s, [EOpenW p]).
Proof.
  intros Hn Hr Hd. unfold with_open_w, open_w. munfold. simpl.
  rewrite Hn. simpl. rewrite Hr. unfold isdir_at in Hd.
  by destruct (node_at (fs s) q) as [[]|].
Qed.

Lemma split_twice_head_resolved (s : state) (name head tail : string)
      (q : path) :
  os.split_twice name = (head, tail) ->
  posixpath.nonempty head = true ->
  posixpath.has_nul name = false -> os.resolve s name = inr q ->
  os.path_isdir s head = true.
Proof.
  unfold os.split_twice. intros Hs Hne Hn Hr.
  destruct (posixpath.split name) as [h1 t1] eqn:H1.
  destruct (posixpath.nonempty t1).
  - injection Hs as -> ->. by eapply path_isdir_head.
  - assert (posixpath.nonempty h1 = true) as Hh1.
    { destruct h1; [| done]. by injection Hs as <- <-. }
    pose proof (path_isdir_head s name h1 t1 q H1 Hh1 Hn Hr)
      as (Hn1 & q1 & Hr1 & _)%path_isdir_resolve.
    by eapply path_isdir_head.
Qed.

(** [makedirs] on the name of a regular file. *)
Lemma makedirs_over_regular_file (s : state) (name c : string) :
  os.lookup_path s name = Some (NFile c) ->
  os.makedirs name true s = (Raise (OSError EEXIST name), s, [EMkdir name]).
Proof.
  intros Hl. assert (posixpath.has_nul name = false /\
    exists q, os.resolve s name = inr q /\ node_at (fs s) q = Some (NFile c))
    as (Hn & q & Hr & Hq).
  { unfold os.lookup_path in Hl. destruct (posixpath.has_nul name); [done |].
    destruct (os.resolve s name) as [e|q]; [done |]. eauto. }
  assert (os.path_isdir s name = false) as Hnd.
  { unfold os.path_isdir. by rewrite Hl. }
  assert (os.mkdir_exist_ok name true s
          = (Raise (OSError EEXIST name), s, [EMkdir name])) as Hleaf.
  { unfold os.mkdir_exist_ok, try_except, os.mkdir. munfold. simpl.
    rewrite Hn. simpl. rewrite (resolve_creation_name s name q Hr), Hq.
    simpl. by rewrite Hnd. }
  unfold os.makedirs. rewrite makedirs_aux_S.
  destruct (os.split_twice name) as [head tail] eqn:Hs.
  unfold bind at 1. simpl.
  destruct (posixpath.nonempty head) eqn:Hh; simpl.
  - rewrite (path_isdir_exists s head)
      by by eapply split_twice_head_resolved.
    rewrite andb_false_r. by rewrite Hleaf.
  - by rewrite Hleaf.
Qed.

(** X4.  When [model_dir] names an existing regular file the job
    fails with [FileExistsError] on [model_dir], after the listing and
    the five epochs, and the state is exactly what it was. *)
Theorem model_dir_is_a_file (args : Namespace) (s : state) (c : string) :
  os.path_isdir s (training_dir args) = true ->
  posixpath.nonempty (model_dir args) = true ->
  ends_with_sep (model_dir args) = false ->
  os.lookup_path s (model_dir args) = Some (NFile c) ->
  exists tmp,
    train args s =
    (Raise (OSError EEXIST (model_dir args)), s,
     [EPrint [PStr "args"; PNamespace args];
      EListdir (training_dir args);
      EPrint [PStr "listing training files"; PList tmp]]
     ++ epochs_trace ++ [EMkdir (model_dir args)]).
Proof.
  intros Hd Hne Hend Hl.
  destruct (train_listed args s Hd) as (q & _ & Ht).
  exists (children (fs s) q). apply Ht.
  unfold persist, model_filename, bind.
  rewrite dirname_model_filename by done.
  by rewrite (makedirs_over_regular_file s _ c Hl).
Qed.

Lemma model_dir_is_a_file_witness :
  (train sample_args blocked_state).1
  = (Raise (OSError EEXIST "/tmp/out"), blocked_state).
Proof.
  destruct (model_dir_is_a_file sample_args blocked_state "")
    as [tmp ->]; reflexivity.
Defined.

(** X5.  When [<model_dir>/model.dummy] is an existing directory the
    job fails with [IsADirectoryError] on the artifact path when it
    opens it; [makedirs] has created nothing and the state is exactly
    what it was. *)
Theorem artifact_is_a_directory (args : Namespace) (s : state) :
  os.path_isdir s (training_dir args) = true ->
  os.path_isdir s (model_filename args) = true ->
  exists tmp,
    train args s =
    (Raise (OSError EISDIR (model_filename args)), s,
     [EPrint [PStr "args"; PNamespace args];
      EListdir (training_dir args);
      EPrint [PStr "listing training files"; PList tmp]]
     ++ epochs_trace
     ++ [EMkdir (posixpath.dirname (model_filename args));
         EOpenW (model_filename args)]).
Proof.
  intros Hd (Hn & q & Hr & Hq)%path_isdir_resolve.
  destruct (train_listed args s Hd) as (q0 & _ & Ht).
  exists (children (fs s) q0). apply Ht.
  assert (os.path_isdir s (posixpath.dirname (model_filename args)) = true)
    as Hdir.
  { eapply path_isdir_head; [| | exact Hn | exact Hr].
    - unfold posixpath.dirname. apply surjective_pairing.
    - apply dirname_model_filename_nonempty. }
  unfold persist, bind, os.makedirs.
  rewrite (makedirs_aux_noop _ _ s Hdir).
  by rewrite (write_isdir s _ _ q Hn Hr Hq).
Qed.

Lemma artifact_is_a_directory_witness :
  (train sample_args occupied_state).1
  = (Raise (OSError EISDIR "/tmp/out/model.dummy"), occupied_state).
Proof.
  destruct (artifact_is_a_directory sample_args occupied_state)
    as [tmp ->]; reflexivity.
Defined.

(** X6.  An empty [model_dir] is not rejected: the artifact path is
    then ["/model.dummy"], its directory is the root, and a run on an
    existing [training_dir] writes the artifact into the root
    directory, creating no directory at all (unless [/model.dummy] is
    itself a directory). *)
Theorem empty_model_dir_writes_to_root (args : Namespace) (s : state) :
  model_dir args = "" ->
  os.path_isdir s (training_dir args) = true ->
  isdir_at (fs s) ["model.dummy"] = false ->
  exists tmp,
    train args s =
    (Ok tt, with_fs s (fs_set (fs s) ["model.dummy"] (NFile "Dummy model.")),
     [EPrint [PStr "args"; PNamespace args];
      EListdir (training_dir args);
      EPrint [PStr "listing training files"; PList tmp]]
     ++ epochs_trace
     ++ [EMkdir "/"; EOpenW "/model.dummy";
         EWrite ["model.dummy"] "Dummy model."]).
Proof.
  intros Hm Hd Hq. destruct (train_listed args s Hd) as (q0 & _ & Ht).
  exists (children (fs s) q0). apply Ht.
  unfold persist, model_filename. rewrite Hm.
  change (posixpath.dirname ("" +:+ "/model.dummy")) with "/".
  change ("" +:+ "/model.dummy") with "/model.dummy".
  unfold bind, os.makedirs.
  rewrite (makedirs_aux_noop _ "/" s) by done.
  by rewrite (write_ok s "/model.dummy" _ ["model.dummy"]).
Qed.

Lemma empty_model_dir_writes_to_root_witness :
  read_text (train empty_model_dir_args sample_state).1.2 "/model.dummy"
  = Some "Dummy model.".
Proof.
  destruct (empty_model_dir_writes_to_root empty_model_dir_args sample_state)
    as [tmp ->]; reflexivity.
Defined.

(** X7.  After a run that returns, the directory [makedirs] was asked
    for exists, and so does [model_dir] itself whenever it is not the
    empty string, whatever its spelling: the artifact lies directly
    in it. *)
Theorem model_dir_exists_after_run (args : Namespace) (s s' : state)
      (tr : list event) :
  train args s = (Ok tt, s', tr) ->
  os.path_isdir s' (posixpath.dirname (model_filename args)) = true /\
  (posixpath.nonempty (model_dir args) = true ->
   exists q,
     os.resolve s' (model_dir args) = inr q /\ isdir_at (fs s') q = true /\
     node_at (fs s') (q ++ ["model.dummy"]) = Some (NFile "Dummy model.")).
Proof.
  intros Hrun.
  destruct (after_run args s s' tr Hrun)
    as (sm & qa & _ & Hqa & Hs' & Hn & Hr & _ & _ & Hdir).
  split; [done |]. intros Hne.
  destruct (resolve_model_filename_inv s' _ qa Hne Hr) as (q & Hq & Hd & ->).
  exists q. split_and!; [done | done |].
  rewrite Hs'. simpl. apply node_at_set_eq. by destruct q.
Qed.

Lemma model_dir_exists_after_run_witness :
  os.path_isdir (train sample_args sample_state).1.2 "/tmp/out" = true.
Proof.
  assert (train sample_args sample_state =
          (Ok tt, (train sample_args sample_state).1.2,
           (train sample_args sample_state).2)) as H
    by (vm_compute; reflexivity).
  exact (proj1 (model_dir_exists_after_run _ _ _ _ H)).
Defined.

(** X8.  When [model_dir] already is a directory and holds no
    directory named [model.dummy], a run on an existing
    [training_dir] succeeds, creates no directory, and changes the
    file system in one entry only: the artifact, created or
    overwritten in place. *)
Theorem existing_model_dir_is_reused (args : Namespace) (s : state)
      (q : path) :
  os.path_isdir s (training_dir args) = true ->
  posixpath.has_nul (model_dir args) = false ->
  os.resolve s (model_dir args) = inr q ->
  isdir_at (fs s) q = true ->
  isdir_at (fs s) (q ++ ["model.dummy"]) = false ->
  exists tmp,
    train args s =
    (Ok tt,
     with_fs s (fs_set (fs s) (q ++ ["model.dummy"]) (NFile "Dummy model.")),
     [EPrint [PStr "args"; PNamespace args];
      EListdir (training_dir args);
      EPrint [PStr "listing training files"; PList tmp]]
     ++ epochs_trace
     ++ [EMkdir (posixpath.dirname (model_filename args));
         EOpenW (model_filename args);
         EWrite (q ++ ["model.dummy"]) "Dummy model."]).
Proof.
  intros Hd Hn Hr Hq Hfree.
  destruct (train_listed args s Hd) as (q0 & _ & Ht).
  exists (children (fs s) q0). apply Ht.
  pose proof (resolve_model_filename s _ q Hr Hq) as Hp.
  assert (posixpath.has_nul (model_filename args) = false) as Hnp.
  { unfold model_filename. by rewrite has_nul_model_filename. }
  assert (os.path_isdir s (posixpath.dirname (model_filename args)) = true)
    as Hdir.
  { eapply path_isdir_head; [| | exact Hnp | exact Hp].
    - unfold posixpath.dirname. apply surjective_pairing.
    - apply dirname_model_filename_nonempty. }
  unfold persist, bind, os.makedirs.
  rewrite (makedirs_aux_noop _ _ s Hdir).
  by rewrite (write_ok s _ _ _ Hnp Hp Hfree).
Qed.

Lemma existing_model_dir_is_reused_witness :
  (fs (train sample_args prepared_state).1.2).*1
  = (fs prepared_state).*1 ++ [["tmp"; "out"; "model.dummy"]].
Proof.
  destruct (existing_model_dir_is_reused sample_args prepared_state
              ["tmp"; "out"]) as [tmp ->]; reflexivity.
Defined.

(** X9.  What [train] prints as the listing is taken from the state
    the run starts in, before anything is created: it holds exactly
    the names of the direct entries of [training_dir], files and
    directories alike and nothing from deeper levels, each name
    once. *)
Theorem listing_is_direct_entries (args : Namespace) (s : state) :
  os.path_isdir s (training_dir args) = true ->
  exists q l r s' t,
    os.resolve s (training_dir args) = inr q /\
    train args s =
    (r, s',
     [EPrint [PStr "args"; PNamespace args];
      EListdir (training_dir args);
      EPrint [PStr "listing training files"; PList l]] ++ t) /\
    (forall c, c ∈ l <-> is_Some (fs_get (fs s) (q ++ [c]))) /\
    (wf_fs (fs s) -> NoDup l).
Proof.
  intros Hd. destruct (train_listed args s Hd) as (q & Hq & Ht).
  destruct (persist args s) as [[r s'] t] eqn:Hp.
  exists q, (children (fs s) q), r, s', (epochs_trace ++ t).
  split_and!; [done | by apply Ht | apply elem_of_children |
               apply NoDup_children].
Qed.

Lemma listing_is_direct_entries_witness :
  exists l t,
    (train sample_args sample_state).2
    = [EPrint [PStr "args"; PNamespace sample_args]; EListdir "/data";
       EPrint [PStr "listing training files"; PList l]] ++ t /\
    NoDup l.
Proof.
  destruct (listing_is_direct_entries sample_args sample_state)
    as (q & l & r & s' & t & _ & Ht & _ & Hn); [reflexivity |].
  exists l, t. split; [by rewrite Ht |].
  apply Hn. unfold wf_fs. apply (bool_decide_unpack _). by vm_compute.
Defined.

(** How [parse_args] ends. *)

Lemma consume_exit (ts : list argparse.token) (ns : Namespace) (extras : bool)
      (s s' : state) (e : exn) (tr : list event) :
  argparse.consume ts ns extras s = (Raise e, s', tr) ->
  s' = s /\ ((e = SystemExit 0 /\ tr = [EHelp]) \/
             (e = SystemExit 2 /\ tr = [EUsage])).
Proof.
  remember (length ts) as n eqn:Hn. revert ts ns extras Hn.
  induction n as [n IH] using lt_wf_ind. intros ts ns extras ->.
  destruct ts as [|[v|d o [v|]|v] ts]; simpl.
  - destruct extras; [| done]. intros [= <- <- <-]. eauto.
  - eapply IH; [| done]. simpl. lia.
  - destruct d.
    + destruct (_ && _ && _); intros [= <- <- <-]; eauto.
    + eapply IH; [| done]. simpl. lia.
    + eapply IH; [| done]. simpl. lia.
    + eapply IH; [| done]. simpl. lia.
  - destruct d; [intros [= <- <- <-]; eauto | | |];
      (destruct ts as [|[v| |] ts];
       [intros [= <- <- <-]; eauto
       | eapply IH; [| done]; simpl; lia
       | intros [= <- <- <-]; eauto
       | intros [= <- <- <-]; eauto]).
  - eapply IH; [| done]. simpl. lia.
Qed.

Lemma consume_extras (ts : list argparse.token) (ns ns' : Namespace)
      (s s' : state) (tr : list event) :
  argparse.consume ts ns true s <> (Ok ns', s', tr).
Proof.
  remember (length ts) as n eqn:Hn. revert ts ns Hn.
  induction n as [n IH] using lt_wf_ind. intros ts ns ->.
  destruct ts as [|[v|d o [v|]|v] ts]; simpl; [done | | | |].
  - eapply IH; [| done]. simpl. lia.
  - destruct d.
    + by destruct (_ && _ && _).
    + eapply IH; [| done]. simpl. lia.
    + eapply IH; [| done]. simpl. lia.
    + eapply IH; [| done]. simpl. lia.
  - destruct d; [done | | |];
      (destruct ts as [|[v| |] ts];
       [done | eapply IH; [| done]; simpl; lia | done | done]).
  - eapply IH; [| done]. simpl. lia.
Qed.

Lemma parse_args_exit (ns : Namespace) (s s' : state) (e : exn)
      (tr : list event) :
  argparse.parse_args ns s = (Raise e, s', tr) ->
  s' = s /\ ((e = SystemExit 0 /\ tr = [EHelp]) \/
             (e = SystemExit 2 /\ tr = [EUsage])).
Proof.
  unfold argparse.parse_args, bind, gets. simpl.
  destruct (argparse.tokenize (argv s)) as [[ts dd]|].
  - destruct (argparse.consume ts ns dd s) as [[r s1] t1] eqn:Hc.
    intros [= -> <- <-]. by eapply consume_exit.
  - intros [= <- <- <-]. eauto.
Qed.

(** X10.  With both variables set and no command-line argument, the
    job is [train] on the defaults: [model_dir] from [SM_MODEL_DIR],
    [checkpoint_dir] the constant [/opt/ml/checkpoints],
    [training_dir] from [SM_CHANNEL_TRAIN]. *)
Theorem main_defaults (s : state) (d t : string) :
  environ s !! "SM_MODEL_DIR" = Some d ->
  environ s !! "SM_CHANNEL_TRAIN" = Some t ->
  argv s = [] ->
  main s = train {| model_dir := d;
                    checkpoint_dir := "/opt/ml/checkpoints";
                    training_dir := t |} s.
Proof.
  intros Hd Ht Ha. rewrite (main_run s d t Hd Ht).
  assert (forall ns, argparse.parse_args ns s = (Ok ns, s, [])) as Hp.
  { intros ns. unfold argparse.parse_args, bind, gets. simpl. by rewrite Ha. }
  unfold bind. rewrite Hp. by destruct (train _ s) as [[r s'] tr].
Qed.

Lemma main_defaults_witness :
  main sample_state
  = train {| model_dir := "/opt/ml/model";
             checkpoint_dir := "/opt/ml/checkpoints";
             training_dir := "/data" |} sample_state.
Proof.
  apply (main_defaults sample_state "/opt/ml/model" "/data"); reflexivity.
Defined.

(** X11.  With [SM_MODEL_DIR] set and [SM_CHANNEL_TRAIN] unset the
    job fails at startup with [KeyError('SM_CHANNEL_TRAIN')], before
    any event and whatever the command line holds, [--training-dir]
    included. *)
Theorem missing_training_channel (s : state) (d : string) :
  environ s !! "SM_MODEL_DIR" = Some d ->
  environ s !! "SM_CHANNEL_TRAIN" = None ->
  main s = (Raise (KeyError "SM_CHANNEL_TRAIN"), s, []).
Proof.
  intros Hd Ht. unfold main, os.environ_getitem.
  unfold bind at 1. unfold bind at 1. simpl. rewrite Hd. simpl.
  unfold bind at 1. unfold bind at 1. simpl. by rewrite Ht.
Qed.

Lemma missing_training_channel_witness :
  main (mkState [] [] {[ "SM_MODEL_DIR" := "/opt/ml/model" ]}
                ["--training-dir"; "/data"])
  = (Raise (KeyError "SM_CHANNEL_TRAIN"),
     mkState [] [] {[ "SM_MODEL_DIR" := "/opt/ml/model" ]}
             ["--training-dir"; "/data"], []).
Proof.
  apply (missing_training_channel _ "/opt/ml/model"); reflexivity.
Defined.

Lemma parse_args_flag (ns : Namespace) (s : state) (o v : string)
      (d : argparse.dest) :
  argparse.parse_optional o = Some (argparse.TOpt d o None) ->
  d <> argparse.Help -> String.eqb o "--" = false ->
  argv s = [o; v] -> String.prefix "-" v = false ->
  argparse.parse_args ns s = (Ok (argparse.store d v ns), s, []).
Proof.
  intros Ho Hd Hdd Ha [Hv Hvd]%parse_optional_plain.
  unfold argparse.parse_args, bind, gets. simpl. rewrite Ha.
  rewrite tokenize_cons, Hdd, Ho, tokenize_cons, Hvd, Hv. simpl.
  by destruct d.
Qed.


Lemma main_parsed (s : state) (d t : string) (ns : Namespace) :
  environ s !! "SM_MODEL_DIR" = Some d ->
  environ s !! "SM_CHANNEL_TRAIN" = Some t ->
  argparse.parse_args
    {| model_dir := d; checkpoint_dir := "/opt/ml/checkpoints";
       training_dir := t |} s = (Ok ns, s, []) ->
  main s = train ns s.
Proof.
  intros Hd Ht Hp. rewrite (main_run s d t Hd Ht). unfold bind. rewrite Hp.
  by destruct (train ns s) as [[r s'] tr].
Qed.

(** X12.  With both variables set, [--training-dir v] replaces the
    training directory taken from [SM_CHANNEL_TRAIN], and
    [--checkpoint-dir v] replaces the constant default of
    [checkpoint_dir]; each leaves the other two values at their
    defaults. *)
Theorem training_and_checkpoint_flags (s : state) (d t v : string) :
  environ s !! "SM_MODEL_DIR" = Some d ->
  environ s !! "SM_CHANNEL_TRAIN" = Some t ->
  String.prefix "-" v = false ->
  (argv s = ["--training-dir"; v] ->
   main s = train {| model_dir := d;
                     checkpoint_dir := "/opt/ml/checkpoints";
                     training_dir := v |} s) /\
  (argv s = ["--checkpoint-dir"; v] ->
   main s = train {| model_dir := d;
                     checkpoint_dir := v;
                     training_dir := t |} s).
Proof.
  intros Hd Ht Hv.
  set (ns := {| model_dir := d; checkpoint_dir := "/opt/ml/checkpoints";
                training_dir := t |}).
  split; intros Ha; apply (main_parsed s d t _ Hd Ht).
  - by apply (parse_args_flag ns s "--training-dir" v argparse.TrainingDir).
  - by apply (parse_args_flag ns s "--checkpoint-dir" v argparse.CheckpointDir).
Qed.

Lemma training_and_checkpoint_flags_witness :
  main (mkState (fs sample_state) [] sample_environ ["--training-dir"; "/data"])
  = train {| model_dir := "/opt/ml/model";
             checkpoint_dir := "/opt/ml/checkpoints";
             training_dir := "/data" |}
          (mkState (fs sample_state) [] sample_environ
                   ["--training-dir"; "/data"]).
Proof.
  refine (proj1 (training_and_checkpoint_flags
                   (mkState (fs sample_state) [] sample_environ
                            ["--training-dir"; "/data"])
                   "/opt/ml/model" "/data" "/data" _ _ _) _);
    reflexivity.
Defined.



(** X14.  With both variables set, a job that ends with [SystemExit]
    was stopped by the argument parser: the status is 0 after the
    help text or 2 after a usage message, that message is the only
    event, and nothing was listed, created or written. *)
Theorem exit_is_before_work (s s' : state) (d t : string) (code : Z)
      (tr : list event) :
  environ s !! "SM_MODEL_DIR" = Some d ->
  environ s !! "SM_CHANNEL_TRAIN" = Some t ->
  main s = (Raise (SystemExit code), s', tr) ->
  s' = s /\ ((code = 0%Z /\ tr = [EHelp]) \/ (code = 2%Z /\ tr = [EUsage])).
Proof.
  intros Hd Ht. rewrite (main_run s d t Hd Ht).
  intros [(ns & s1 & t1 & t2 & _ & Hr & _) | (e & Hp & [= <-])]%bind_inv.
  - exfalso.
    apply train_raise_inv in Hr as [(_ & _ & He & _) | (_ & t0 & Hp)];
      [done |].
    by apply persist_raise in Hp as (_ & [He | He] & _).
  - apply parse_args_exit in Hp as [-> [[[= <-] ->] | [[= <-] ->]]]; eauto.
Qed.

Lemma exit_is_before_work_witness :
  main (mkState (fs sample_state) [] sample_environ ["--epochs"; "3"])
  = (Raise (SystemExit 2),
     mkState (fs sample_state) [] sample_environ ["--epochs"; "3"],
     [EUsage]).
Proof.
  assert (main (mkState (fs sample_state) [] sample_environ ["--epochs"; "3"])
          = (Raise (SystemExit 2),
             (main (mkState (fs sample_state) [] sample_environ
                            ["--epochs"; "3"])).1.2,
             (main (mkState (fs sample_state) [] sample_environ
                            ["--epochs"; "3"])).2)) as H
    by (vm_compute; reflexivity).
  destruct (exit_is_before_work _ _ "/opt/ml/model" "/data" _ _
              (eq_refl : environ (mkState (fs sample_state) [] sample_environ
                                          ["--epochs"; "3"])
                         !! "SM_MODEL_DIR" = Some "/opt/ml/model")
              eq_refl H) as [Hs [[Hc Htr] | [_ Htr]]].
  - discriminate Hc.
  - rewrite H. by rewrite Hs, Htr.
Defined.

(** X15.  A command line that begins with a plain argument (one that
    does not start with a dash) is never accepted: the job exits from
    the parser, with the help text or a usage message as its only
    event, and [train] is not called. *)
Theorem stray_argument_is_rejected (s : state) (d t x : string)
      (rest : list string) :
  environ s !! "SM_MODEL_DIR" = Some d ->
  environ s !! "SM_CHANNEL_TRAIN" = Some t ->
  argv s = x :: rest -> String.prefix "-" x = false ->
  exists code tr,
    main s = (Raise (SystemExit code), s, tr) /\
    (tr = [EHelp] \/ tr = [EUsage]).
Proof.
  intros Hd Ht Ha [Hx Hxd]%parse_optional_plain.
  rewrite (main_run s d t Hd Ht). unfold bind.
  destruct (argparse.parse_args _ s) as [[[ns|e] s1] t1] eqn:Hp.
  - exfalso. revert Hp. unfold argparse.parse_args, bind, gets. simpl.
    rewrite Ha, tokenize_cons, Hxd, Hx.
    destruct (argparse.tokenize rest) as [[ts dd]|]; [| done]. simpl.
    destruct (argparse.consume ts _ true s) as [[r s2] t2] eqn:Hc.
    intros [= -> <- <-]. by eapply consume_extras.
  - apply parse_args_exit in Hp as [-> [[-> ->] | [-> ->]]]; eauto.
Qed.

Lemma stray_argument_is_rejected_witness :
  exists code tr,
    main (mkState (fs sample_state) [] sample_environ ["/tmp/out"])
    = (Raise (SystemExit code),
       mkState (fs sample_state) [] sample_environ ["/tmp/out"], tr).
Proof.
  destruct (stray_argument_is_rejected
              (mkState (fs sample_state) [] sample_environ ["/tmp/out"])
              "/opt/ml/model" "/data" "/tmp/out" [])
    as (code & tr & H & _); [reflexivity | reflexivity | reflexivity
                            | reflexivity |].
  exists code, tr. exact H.
Defined.

(** ** Creating the chain of ancestors *)

Section ancestors.

Import posixpath.

Implicit Types (s : state) (t : fstree) (cs : list string) (c : string).














End ancestors.

Section chain.

Import posixpath.

Implicit Types (s : state) (cs : list string) (c : string).



End chain.



(** The ways the artifact write can end. *)
Lemma write_cases (s : state) (p data : string) :
  (exists q,
     posixpath.has_nul p = false /\ os.resolve s p = inr q /\
     isdir_at (fs s) q = false /\
     with_open_w p (fun f => file_write f data) s
     = (Ok tt, with_fs s (fs_set (fs s) q (NFile data)),
        [EOpenW p; EWrite q data])) \/
  ((posixpath.has_nul p = true \/
    (posixpath.has_nul p = false /\
     forall q, os.resolve s p = inr q -> isdir_at (fs s) q = true)) /\
   exists e,
     with_open_w p (fun f => file_write f data) s = (Raise e, s, [EOpenW p])).
Proof.
  destruct (posixpath.has_nul p) eqn:Hn.
  { right. split; [by left |]. unfold with_open_w, open_w. munfold. simpl.
    rewrite Hn. eauto. }
  destruct (os.resolve s p) as [e|q] eqn:Hr.
  { right. split; [by right |]. unfold with_open_w, open_w. munfold. simpl.
    rewrite Hn. simpl. rewrite Hr. eauto. }
  destruct (isdir_at (fs s) q) eqn:Hd.
  - right. split; [right; split; [done |]; by intros ? [= <-] |].
    rewrite (write_isdir s p data q) by done. eauto.
  - left. exists q. split_and!; try done. by apply write_ok.
Qed.

Lemma write_same (s : state) (p p' data : string) :
  posixpath.has_nul p = posixpath.has_nul p' ->
  os.resolve s p = os.resolve s p' ->
  forall s',
    ((exists tr, with_open_w p (fun f => file_write f data) s = (Ok tt, s', tr))
     <-> (exists tr, with_open_w p' (fun f => file_write f data) s
                     = (Ok tt, s', tr))) /\
    ((exists e tr, with_open_w p (fun f => file_write f data) s
                   = (Raise e, s', tr))
     <-> (exists e tr, with_open_w p' (fun f => file_write f data) s
                       = (Raise e, s', tr))).
Proof.
  intros Hn Hr s'.
  destruct (write_cases s p data)
    as [(q & Hn1 & Hr1 & Hd1 & ->) | (Hc & e & ->)];
  destruct (write_cases s p' data)
    as [(q' & Hn2 & Hr2 & Hd2 & ->) | (Hc' & e' & ->)].
  - assert (q' = q) as -> by congruence.
    split; split; intros H; destruct H as (? & H);
      try (destruct H as (? & H)); simplify_eq; eauto.
  - exfalso. destruct Hc' as [Hc' | [_ Hc']]; [congruence |].
    rewrite <-Hr in Hc'. specialize (Hc' q Hr1). congruence.
  - exfalso. destruct Hc as [Hc | [_ Hc]]; [congruence |].
    rewrite Hr in Hc. specialize (Hc q' Hr2). congruence.
  - split; split; intros H; destruct H as (? & H);
      try (destruct H as (? & H)); simplify_eq; eauto.
Qed.

Lemma resolve_doubled_sep (s : state) (m : string) :
  posixpath.nonempty m = true ->
  os.resolve s ((m +:+ "/") +:+ "/model.dummy")
  = os.resolve s (m +:+ "/model.dummy").
Proof.
  intros Hm. unfold os.resolve.
  assert (posixpath.nonempty (m +:+ "/") = true) as Hm' by by destruct m.
  assert (posixpath.nonempty ((m +:+ "/") +:+ "/model.dummy") = true) as ->
    by by destruct m.
  assert (posixpath.nonempty (m +:+ "/model.dummy") = true) as ->
    by by destruct m.
  rewrite !isabs_app, !components_model_filename by done.
  change (m +:+ "/") with (m +:+ String posixpath.sep EmptyString).
  rewrite components_app_sep, <-app_assoc, !walk_app.
  destruct (walk _ _ (posixpath.components m)) as [e|q]; [done |].
  simpl. by destruct (node_at (fs s) q) as [[]|].
Qed.

(** X17.  A separator at the end of [model_dir] makes no difference
    to what the job does to the system: for a [model_dir] that is not
    made of separators only, the run with [model_dir + "/"] returns
    exactly when the run with [model_dir] returns, raises exactly when
    it raises, and leaves the same state. *)
Theorem trailing_separator_is_harmless (args : Namespace) (s s' : state) :
  posixpath.all_sep (model_dir args) = false ->
  ((exists tr, train args s = (Ok tt, s', tr)) <->
   (exists tr, train {| model_dir := model_dir args +:+ "/";
                        checkpoint_dir := checkpoint_dir args;
                        training_dir := training_dir args |} s
               = (Ok tt, s', tr))) /\
  ((exists e tr, train args s = (Raise e, s', tr)) <->
   (exists e tr, train {| model_dir := model_dir args +:+ "/";
                          checkpoint_dir := checkpoint_dir args;
                          training_dir := training_dir args |} s
                 = (Raise e, s', tr))).
Proof.
  intros Hall.
  set (args' := {| model_dir := model_dir args +:+ "/";
                   checkpoint_dir := checkpoint_dir args;
                   training_dir := training_dir args |}).
  assert (posixpath.nonempty (model_dir args) = true) as Hne
    by (by destruct (model_dir args)).
  assert (posixpath.dirname (model_filename args')
          = posixpath.dirname (model_filename args)) as Hdn.
  { unfold posixpath.dirname, model_filename, args'. simpl.
    rewrite !split_model_filename.
    change (model_dir args +:+ "/")
      with (model_dir args +:+ String posixpath.sep EmptyString).
    by rewrite all_sep_app_sep, rstrip_app_sep, Hall. }
  assert (posixpath.has_nul (model_filename args)
          = posixpath.has_nul (model_filename args')) as Hnul.
  { unfold model_filename, args'. simpl.
    rewrite !has_nul_model_filename, has_nul_app. simpl.
    by rewrite orb_false_r. }
  assert (forall s1, os.resolve s1 (model_filename args)
                     = os.resolve s1 (model_filename args')) as Hres.
  { intros s1. unfold model_filename, args'. simpl.
    by rewrite resolve_doubled_sep. }
  destruct (os.path_isdir s (training_dir args)) eqn:Htd.
  - destruct (train_listed args s Htd) as (q & _ & Ht).
    destruct (train_listed args' s Htd) as (q' & _ & Ht').
    destruct (persist args s) as [[r st] t] eqn:Hp.
    destruct (persist args' s) as [[r' st'] t'] eqn:Hp'.
    rewrite (Ht _ _ _ eq_refl), (Ht' _ _ _ eq_refl).
    revert Hp Hp'. unfold persist, bind. rewrite Hdn.
    destruct (os.makedirs _ true s) as [[[[]|e1] s1] t1].
    + destruct (write_same s1 _ _ "Dummy model." Hnul (Hres s1) s')
        as [Hok Hraise].
      destruct (with_open_w (model_filename args) _ s1) as [[r2 s2] t2].
      destruct (with_open_w (model_filename args') _ s1) as [[r2' s2'] t2'].
      intros [= <- <- <-] [= <- <- <-]. split; split.
      * intros (? & [= -> ->]). destruct (proj1 Hok) as (? & [= -> ->]); eauto.
      * intros (? & [= -> ->]). destruct (proj2 Hok) as (? & [= -> ->]); eauto.
      * intros (? & ? & [= -> ->]).
        destruct (proj1 Hraise) as (? & ? & [= -> ->]); eauto.
      * intros (? & ? & [= -> ->]).
        destruct (proj2 Hraise) as (? & ? & [= -> ->]); eauto.
    + intros [= <- <- <-] [= <- <- <-].
      split; split; intros H; destruct H as (? & H);
        try (destruct H as (? & H)); simplify_eq; eauto.
  - destruct (train_unlisted args s Htd) as (e & -> & _).
    destruct (train_unlisted args' s Htd) as (e' & -> & _).
    split; split; intros H; destruct H as (? & H);
      try (destruct H as (? & H)); simplify_eq; eauto.
Qed.

Lemma trailing_separator_is_harmless_witness :
  (train {| model_dir := "/tmp/out/";
            checkpoint_dir := "/opt/ml/checkpoints";
            training_dir := "/data" |} sample_state).1
  = (train sample_args sample_state).1.
Proof.
  assert (train sample_args sample_state =
          (Ok tt, (train sample_args sample_state).1.2,
           (train sample_args sample_state).2)) as H
    by (vm_compute; reflexivity).
  destruct (trailing_separator_is_harmless sample_args sample_state
              (train sample_args sample_state).1.2 eq_refl)
    as [[Hok _] _].
  destruct Hok as [tr Htr]; [by eexists |].
  rewrite H. simpl in Htr. by rewrite Htr.
Defined.

(** X18.  An empty [training_dir] is not the working directory: the
    listing fails with [FileNotFoundError] in every state, and the
    job stops there. *)
Theorem empty_training_dir (args : Namespace) (s : state) :
  training_dir args = "" ->
  train args s =
  (Raise (OSError ENOENT ""), s,
   [EPrint [PStr "args"; PNamespace args]; EListdir ""]).
Proof.
  intros Ht. unfold train, print, os.listdir. munfold. simpl.
  by rewrite Ht.
Qed.

Lemma empty_training_dir_witness :
  (train {| model_dir := "/tmp/out"; checkpoint_dir := "/opt/ml/checkpoints";
            training_dir := "" |} sample_state).1
  = (Raise (OSError ENOENT ""), sample_state).
Proof.
  by rewrite (empty_training_dir
                {| model_dir := "/tmp/out";
                   checkpoint_dir := "/opt/ml/checkpoints";
                   training_dir := "" |} sample_state eq_refl).
Defined.
